(** * mr-plotter-conf: the account and tag-definition command tables

    Three generations of the same command table are verified here:

    - [Legacy]: [src/main.go], the first REPL (accounts only);
    - [Repl]:   [src/unnamed/part_001], the second REPL (accounts and tag
                definitions, commands return a Go [error]);
    - [Cli]:    [src/unnamed/part_000], package [cli] (the same commands as
                closures writing to an [io.Writer] and returning [argsOK],
                run through [MrPlotterCommand.Run]).

    Every command talks to the configuration store only through the functions
    of the external package [accounts].  A command is therefore embedded as a
    tree of store calls: each node is one call of that package, its children
    are indexed by what the call may answer.  A [Backend] answers the calls;
    theorems quantify over all backends, and [memStore] is one concrete
    backend used to run the commands on explicit inputs. *)

From stdpp Require Import gmap strings list pretty.

Open Scope string_scope.
Set Warnings "-clear-no-such-hyp".

(** ** Data model (structs of package [accounts], as the commands use them) *)

(** A Go [map[string]struct{}] is an [option (gset string)]: [None] is the
    nil map. *)

Record MrPlotterAccount := mkAccount {
  Username : string;
  Tags : option (gset string);
  (** Credential material: the plaintext the stored credential was derived
      from (the derivation is the external package's). *)
  Password : string;
  (** Version token of the record the struct was read from; [0] for a struct
      built locally. *)
  AccRevision : N;
}.

Record MrPlotterTagDef := mkTagDef {
  Tag : string;
  PathPrefix : option (gset string);
  TagRevision : N;
}.

#[global] Instance MrPlotterAccount_eq_dec : EqDecision MrPlotterAccount.
Proof. solve_decision. Defined.
#[global] Instance MrPlotterTagDef_eq_dec : EqDecision MrPlotterTagDef.
Proof. solve_decision. Defined.

Definition PUBLIC_TAG : string := "public".
Definition ALL_TAG : string := "all".

(** Go's [error] is modelled by its message; [None] is the nil error. *)
Definition error := string.

Inductive result (A : Type) : Type :=
| Ok (a : A)
| Err (e : error).
Arguments Ok {A} a.
Arguments Err {A} e.

(** [acc.SetPassword([]byte(pw))] *)
Definition SetPassword (acc : MrPlotterAccount) (pw : string) : MrPlotterAccount :=
  {| Username := Username acc; Tags := Tags acc; Password := pw;
     AccRevision := AccRevision acc |}.

Definition withTags (acc : MrPlotterAccount) (tags : option (gset string)) : MrPlotterAccount :=
  {| Username := Username acc; Tags := tags; Password := Password acc;
     AccRevision := AccRevision acc |}.

Definition withPathPrefix (td : MrPlotterTagDef) (pfx : option (gset string)) : MrPlotterTagDef :=
  {| Tag := Tag td; PathPrefix := pfx; TagRevision := TagRevision td |}.

(** ** Store calls *)

Inductive call : Type :=
| RetrieveAccount (username : string)
| UpsertAccountAtomically (acc : MrPlotterAccount)
| DeleteAccount (username : string)
| DeleteMultipleAccounts (usernameprefix : string)
| RetrieveMultipleAccounts (usernameprefix : string)
| RetrieveTagDef (tag : string)
| UpsertTagDefAtomically (tagdef : MrPlotterTagDef)
| DeleteTagDef (tag : string)
| DeleteMultipleTagDefs (tagprefix : string)
| RetrieveMultipleTagDefs (tagprefix : string).

(** What each call returns to the command. *)
Definition resp (c : call) : Type :=
  match c with
  | RetrieveAccount _ => result MrPlotterAccount
  | UpsertAccountAtomically _ => bool * option error
  | DeleteAccount _ => option error
  | DeleteMultipleAccounts _ => Z * option error
  | RetrieveMultipleAccounts _ => result (list MrPlotterAccount)
  | RetrieveTagDef _ => result MrPlotterTagDef
  | UpsertTagDefAtomically _ => bool * option error
  | DeleteTagDef _ => option error
  | DeleteMultipleTagDefs _ => Z * option error
  | RetrieveMultipleTagDefs _ => result (list MrPlotterTagDef)
  end.

(** ** Commands as trees of store calls *)

Inductive prog (A : Type) : Type :=
| Ret (a : A)
| Do (c : call) (k : resp c -> prog A)
| Range (s : gset string) (k : list string -> prog A)
| Out (line : string) (k : prog A)
| Exit (code : Z)
| Panic (msg : string).
Arguments Ret {A} a.
Arguments Do {A} c k.
Arguments Range {A} s k.
Arguments Out {A} line k.
Arguments Exit {A} code.
Arguments Panic {A} msg.

Fixpoint bind {A B} (m : prog A) (f : A -> prog B) : prog B :=
  match m with
  | Ret a => f a
  | Do c k => Do c (fun r => bind (k r) f)
  | Range s k => Range s (fun l => bind (k l) f)
  | Out line k => Out line (bind k f)
  | Exit code => Exit code
  | Panic msg => Panic msg
  end.

#[global] Instance prog_ret : MRet prog := fun A a => Ret a.
#[global] Instance prog_bind : MBind prog := fun A B f m => bind m f.

Definition perform (c : call) : prog (resp c) := Do c Ret.
(** [for k := range m]: Go leaves the order to the runtime. *)
Definition range (s : gset string) : prog (list string) := Range s Ret.
Definition write (line : string) : prog unit := Out line (Ret tt).

(** ** Formatting *)

Definition nl : string := String (Ascii.ascii_of_nat 10) EmptyString.
Definition dq : string := String (Ascii.ascii_of_nat 34) EmptyString.

(** [fmt.Println(s)] and [fmt.Fprintln(output, s)] *)
Definition Println (s : string) : prog unit := write (s ++ nl).
(** [fmt.Printf(format, ...)], the format already instantiated *)
Definition Printf (s : string) : prog unit := write s.
(** [strings.Join(l, sep)] *)
Definition Join (l : list string) (sep : string) : string := String.concat sep l.

(** ** Backends and runs *)

Record Backend := mkBackend {
  state : Type;
  handle : forall c : call, state -> resp c * state;
  (** the order in which the runtime ranges over a map *)
  order : gset string -> list string;
}.

(** The runtime visits every key once. *)
Definition fair (B : Backend) : Prop := forall s, order B s ≡ₚ elements s.

Inductive outcome (A : Type) : Type :=
| Returned (a : A)
| Exited (code : Z)
| Panicked (msg : string).
Arguments Returned {A} a.
Arguments Exited {A} code.
Arguments Panicked {A} msg.

(** What a run leaves behind, in order: the store calls with their answers
    and the lines written. *)
Inductive item : Type :=
| Called (c : call) (r : resp c)
| Printed (line : string).

Record Run (B : Backend) (A : Type) := mkRun {
  res : outcome A;
  final : state B;
  log : list item;
}.
Arguments mkRun {B A} res final log.
Arguments res {B A} r.
Arguments final {B A} r.
Arguments log {B A} r.

Definition logged {B A} (i : item) (r : Run B A) : Run B A :=
  mkRun (res r) (final r) (i :: log r).

Fixpoint run {A} (B : Backend) (p : prog A) (s : state B) : Run B A :=
  match p with
  | Ret a => mkRun (Returned a) s []
  | Do c k =>
      let '(r, s') := handle B c s in
      logged (Called c r) (run B (k r) s')
  | Range m k => run B (k (order B m)) s
  | Out line k => logged (Printed line) (run B k s)
  | Exit code => mkRun (Exited code) s []
  | Panic msg => mkRun (Panicked msg) s []
  end.

Definition call_of (i : item) : option call :=
  match i with
  | Called c _ => Some c
  | Printed _ => None
  end.

Definition line_of (i : item) : option string :=
  match i with
  | Called _ _ => None
  | Printed line => Some line
  end.

(** The store calls of a run, and the lines it wrote. *)
Definition calls {B A} (r : Run B A) : list call := omap call_of (log r).
Definition output {B A} (r : Run B A) : list string := omap line_of (log r).

(** Running [m] and then what [k] makes of its value. *)
Definition then_run {B A C} (r : Run B A) (k : A -> state B -> Run B C) : Run B C :=
  match res r with
  | Returned a =>
      let r' := k a (final r) in
      mkRun (res r') (final r') (log r ++ log r')
  | Exited code => mkRun (Exited code) (final r) (log r)
  | Panicked msg => mkRun (Panicked msg) (final r) (log r)
  end.

(** ** Go maps used as sets *)

(** [_, ok := m[k]]: reading a nil map finds nothing. *)
Definition has (m : option (gset string)) (k : string) : bool :=
  match m with
  | Some s => bool_decide (k ∈ s)
  | None => false
  end.

(** [delete(m, k)]: a no-op on the nil map. *)
Definition remove (m : option (gset string)) (k : string) : option (gset string) :=
  (fun s => s ∖ {[k]}) <$> m.

(** [len(m)] *)
Definition len (m : option (gset string)) : nat :=
  match m with
  | Some s => size s
  | None => 0
  end.

(** [for k := range m] on a possibly nil map: the nil map has no keys. *)
Definition rangeMap (m : option (gset string)) : prog (list string) :=
  match m with
  | Some s => range s
  | None => mret []
  end.

Definition errorTxFail : error := "Transacation for atomic update failed; try again".
Definition errorAlreadyExists : error := "Already exists".

(** ** Loops that are the same text in several tables *)

(** [addtags] in [src/main.go], [grant] in both later tables, and (on the
    prefix set) [addprefix]:
    [for _, tag := range tokens[2:] { if _, ok := m[tag]; !ok { m[tag] = struct{}{} } }]
    on a map that is not nil. *)
Definition grant_loop (tags : gset string) (l : list string) : gset string :=
  foldl (fun tags tag => if bool_decide (tag ∈ tags) then tags else {[tag]} ∪ tags) tags l.

(** [revoke] in both later tables: [None] is the early [return] taken when
    the tag at hand is [accounts.PUBLIC_TAG]. *)
Fixpoint revoke_loop (tags : option (gset string)) (l : list string)
  : option (option (gset string)) :=
  match l with
  | [] => Some tags
  | tag :: l' =>
      if decide (tag = PUBLIC_TAG) then None
      else if has tags tag then revoke_loop (remove tags tag) l'
      else revoke_loop tags l'
  end.

(** [rmprefix] in both later tables: [None] is the early [return] taken when
    the prefix at hand is the only one left. *)
Fixpoint rmprefix_loop (pfxs : option (gset string)) (l : list string)
  : option (option (gset string)) :=
  match l with
  | [] => Some pfxs
  | pfx :: l' =>
      if has pfxs pfx then
        if decide (len pfxs = 1) then None
        else rmprefix_loop (remove pfxs pfx) l'
      else rmprefix_loop pfxs l'
  end.

(** The symbol printed for the streams the ["all"] tag gives access to
    ([ALL_TAG_SYMBOL] in the second REPL, [AllTagSymbol] in package [cli]). *)
Definition ALL_TAG_SYMBOL : string := "<ALL STREAMS>".

(** [ls] in both later tables, the loop [for tag := range acc.Tags] over the
    keys in the order the runtime produced them.  [inl (tag, err)] is the
    early return taken when the definition of [tag] could not be retrieved;
    [inr prefixes] is the set the loop leaves in [prefixes].  The cache is
    read and nowhere written, so the loop hands it on as it got it. *)
Fixpoint ls_tags (tagcache : gmap string (option (gset string)))
    (prefixes : gset string) (tags : list string)
  : prog (string * error + gset string) :=
  match tags with
  | [] => mret (inr prefixes)
  | tag :: tags' =>
      if decide (tag = ALL_TAG) then
        (* prefixes = make(...); prefixes[ALL_TAG_SYMBOL] = struct{}{}; break *)
        mret (inr {[ALL_TAG_SYMBOL]})
      else
        found ← match tagcache !! tag with
                | Some tagPfxSet => mret (inr tagPfxSet)
                | None =>
                    r ← perform (RetrieveTagDef tag);
                    match r with
                    | Err err => mret (inl (tag, err))
                    | Ok tagdef => mret (inr (PathPrefix tagdef))
                    end
                end;
        match found with
        | inl failure => mret (inl failure)
        | inr tagPfxSet =>
            (* for pfx := range tagPfxSet { prefixes[pfx] = struct{}{} } *)
            ls_tags tagcache (prefixes ∪ default ∅ tagPfxSet) tags'
        end
  end.

(** Permission resolution for one account, as both [ls] loops do it for an
    account whose [Tags] is not nil: range over the tags and run the loop
    above from the empty set of prefixes. *)
Definition resolve (tagcache : gmap string (option (gset string)))
    (tagSet : gset string) : prog (string * error + gset string) :=
  tags ← range tagSet;
  ls_tags tagcache ∅ tags.

(** [fmt.Sprintf("Could not retrieve tag information for '%s': %v\n", tag, err)] *)
Definition couldNotRetrieve (tag : string) (err : error) : string :=
  "Could not retrieve tag information for '" ++ tag ++ "': " ++ err ++ nl.

(** [fmt.Sprintf("Cannot modify definition of \"%s\" tag\n", accounts.ALL_TAG)] *)
Definition cannotModify : string :=
  "Cannot modify definition of " ++ dq ++ ALL_TAG ++ dq ++ " tag" ++ nl.

(** [fmt.Sprintf("Tag \"%s\" cannot be deleted\n", accounts.ALL_TAG)] *)
Definition cannotBeDeleted : string :=
  "Tag " ++ dq ++ ALL_TAG ++ dq ++ " cannot be deleted" ++ nl.

Definition atLeastOnePrefix : string :=
  "Each tag must be assigned at least one prefix (use undeftag or undeftags to fully remove a tag)".

(** [fmt.Fprintln(output, message)] when [output] is the nil [io.Writer]:
    the call of [Write] on the nil interface panics.  [withNilOutput p] is
    [p] with every write going to that nil writer. *)
Definition nilWriter : string := "invalid memory address or nil pointer dereference".

Fixpoint withNilOutput {A} (p : prog A) : prog A :=
  match p with
  | Ret a => Ret a
  | Do c k => Do c (fun r => withNilOutput (k r))
  | Range s k => Range s (fun l => withNilOutput (k l))
  | Out _ _ => Panic nilWriter
  | Exit code => Exit code
  | Panic msg => Panic msg
  end.

(** ** [src/main.go]: the first command table *)

Module Legacy.

Definition tagSliceToSet (tagSlice : list string) : gset string :=
  list_to_set tagSlice.

Definition tagSetToSlice (tagSet : option (gset string)) : prog (list string) :=
  rangeMap tagSet.

Definition adduser (tokens : list string) : prog (option error) :=
  if decide (length tokens < 3) then
    Println "Usage: adduser username password [tag1] [tag2] ...";;
    mret None
  else
    let tagSet := tagSliceToSet (drop 3 tokens) in
    let tagSet := {["public"]} ∪ tagSet in
    let acc := mkAccount (tokens !!! 1) (Some tagSet) "" 0 in
    let acc := SetPassword acc (tokens !!! 2) in
    '(success, err) ← perform (UpsertAccountAtomically acc);
    if negb success then mret (Some errorTxFail) else mret err.

Definition setpassword (tokens : list string) : prog (option error) :=
  if decide (length tokens ≠ 3) then
    Println "Usage: setpassword username password";;
    mret None
  else
    r ← perform (RetrieveAccount (tokens !!! 1));
    match r with
    | Err err => mret (Some err)
    | Ok acc =>
        let acc := SetPassword acc (tokens !!! 2) in
        '(success, err) ← perform (UpsertAccountAtomically acc);
        if negb success then mret (Some errorTxFail) else mret err
    end.

Definition rmuser (tokens : list string) : prog (option error) :=
  if decide (length tokens ≠ 2) then
    Println "Usage: rmuser username";;
    mret None
  else
    perform (DeleteAccount (tokens !!! 1)).

Definition rmusers (tokens : list string) : prog (option error) :=
  if decide (length tokens ≠ 2) then
    Println "Usage: rmusers prefix";;
    mret None
  else
    '(n, err) ← perform (DeleteMultipleAccounts (tokens !!! 1));
    (if decide (n = 1%Z) then Println "Deleted 1 account"
     else Printf ("Deleted " ++ pretty n ++ " accounts" ++ nl));;
    mret err.

Definition addtags (tokens : list string) : prog (option error) :=
  if decide (length tokens < 3) then
    Println "Usage: addtags username tag1 [tag2] [tag3] ...";;
    mret None
  else
    r ← perform (RetrieveAccount (tokens !!! 1));
    match r with
    | Err err => mret (Some err)
    | Ok acc =>
        match Tags acc with
        | None => Panic "assignment to entry in nil map"
        | Some tags =>
            let acc := withTags acc (Some (grant_loop tags (drop 2 tokens))) in
            '(success, err) ← perform (UpsertAccountAtomically acc);
            if negb success then mret (Some errorTxFail) else mret err
        end
    end.

(** The loop of [rmtags]: ["public"] is skipped with [continue]. *)
Fixpoint rmtags_loop (tags : option (gset string)) (l : list string) : option (gset string) :=
  match l with
  | [] => tags
  | tag :: l' =>
      if decide (tag = "public") then rmtags_loop tags l'
      else if has tags tag then rmtags_loop (remove tags tag) l'
      else rmtags_loop tags l'
  end.

Definition rmtags (tokens : list string) : prog (option error) :=
  if decide (length tokens < 3) then
    Println "Usage: rmtags username tag1 [tag2] [tag3] ...";;
    mret None
  else
    r ← perform (RetrieveAccount (tokens !!! 1));
    match r with
    | Err err => mret (Some err)
    | Ok acc =>
        let acc := withTags acc (rmtags_loop (Tags acc) (drop 2 tokens)) in
        '(success, err) ← perform (UpsertAccountAtomically acc);
        if negb success then mret (Some errorTxFail) else mret err
    end.

Definition lstags (tokens : list string) : prog (option error) :=
  if decide (length tokens ≠ 2) then
    Println "Usage: lstags username";;
    mret None
  else
    r ← perform (RetrieveAccount (tokens !!! 1));
    match r with
    | Err err => mret (Some err)
    | Ok acc =>
        tagSlice ← tagSetToSlice (Tags acc);
        Println (Join tagSlice " ");;
        mret None
    end.

Fixpoint lsusers_loop (accs : list MrPlotterAccount) : prog unit :=
  match accs with
  | [] => mret tt
  | acc :: accs' =>
      match Tags acc with
      | None => Printf (Username acc ++ " [CORRUPT ENTRY]" ++ nl)
      | Some _ => Println (Username acc)
      end;;
      lsusers_loop accs'
  end.

Definition lsusers (tokens : list string) : prog (option error) :=
  if decide (length tokens ≠ 1 ∧ length tokens ≠ 2) then
    Println "Usage: lsusers [prefix]";;
    mret None
  else
    let prefix := if decide (length tokens = 2) then tokens !!! 1 else "" in
    r ← perform (RetrieveMultipleAccounts prefix);
    match r with
    | Err err => mret (Some err)
    | Ok accs => lsusers_loop accs;; mret None
    end.

Fixpoint ls_loop (accs : list MrPlotterAccount) : prog unit :=
  match accs with
  | [] => mret tt
  | acc :: accs' =>
      match Tags acc with
      | None => Printf (Username acc ++ " [CORRUPT ENTRY]" ++ nl)
      | Some _ =>
          tagSlice ← tagSetToSlice (Tags acc);
          Printf (Username acc ++ ": " ++ Join tagSlice " " ++ nl)
      end;;
      ls_loop accs'
  end.

Definition ls (tokens : list string) : prog (option error) :=
  if decide (length tokens ≠ 1 ∧ length tokens ≠ 2) then
    Println "Usage: ls [prefix]";;
    mret None
  else
    let prefix := if decide (length tokens = 2) then tokens !!! 1 else "" in
    r ← perform (RetrieveMultipleAccounts prefix);
    match r with
    | Err err => mret (Some err)
    | Ok accs => ls_loop accs;; mret None
    end.

Definition close (tokens : list string) : prog (option error) :=
  if decide (length tokens ≠ 1) then
    Println "Usage: close";;
    mret None
  else Exit 0.

Definition exit (tokens : list string) : prog (option error) :=
  if decide (length tokens ≠ 1) then
    Println "Usage: exit";;
    mret None
  else Exit 0.

Definition ops (opcode : string) : option (list string -> prog (option error)) :=
  if decide (opcode = "adduser") then Some adduser
  else if decide (opcode = "setpassword") then Some setpassword
  else if decide (opcode = "rmuser") then Some rmuser
  else if decide (opcode = "rmusers") then Some rmusers
  else if decide (opcode = "addtags") then Some addtags
  else if decide (opcode = "rmtags") then Some rmtags
  else if decide (opcode = "lstags") then Some lstags
  else if decide (opcode = "lsusers") then Some lsusers
  else if decide (opcode = "ls") then Some ls
  else if decide (opcode = "close") then Some close
  else if decide (opcode = "exit") then Some exit
  else None.

(** The keys of the map [ops]. *)
Definition opnames : gset string :=
  list_to_set ["adduser"; "setpassword"; "rmuser"; "rmusers"; "addtags"; "rmtags";
               "lstags"; "lsusers"; "ls"; "close"; "exit"].

Definition help : prog unit :=
  commands ← range opnames;
  Println "Type one of the following commands and press <Enter> or <Return> to execute it:";;
  Println (Join commands " ").

(** [accounts_exec(etcdClient, cmd)], from [tokens := strings.Fields(cmd)]
    on. *)
Definition accounts_exec (tokens : list string) : prog unit :=
  match tokens with
  | [] => mret tt
  | opcode :: _ =>
      if decide (opcode = "help") then help
      else match ops opcode with
           | Some op =>
               err ← op tokens;
               match err with
               | Some e => Printf ("Operation failed: " ++ e ++ nl)
               | None => mret tt
               end
           | None =>
               Printf ("'" ++ opcode ++ "' is not a valid command" ++ nl);;
               help
           end
  end.

End Legacy.

(** ** [src/unnamed/part_001]: the second REPL *)

Module Repl.

Definition sliceToSet (tagSlice : list string) : gset string :=
  list_to_set tagSlice.

Definition setToSlice (tagSet : option (gset string)) : prog (list string) :=
  rangeMap tagSet.

Definition usage (what how : string) : prog (option error) :=
  Println what;; Println how;; mret None.

Definition adduser (tokens : list string) : prog (option error) :=
  if decide (length tokens < 3) then
    usage "adduser - creates a new user account"
          "Usage: adduser username password [tag1] [tag2] ..."
  else
    let tagSet := sliceToSet (drop 3 tokens) in
    let tagSet := {[PUBLIC_TAG]} ∪ tagSet in
    let acc := mkAccount (tokens !!! 1) (Some tagSet) "" 0 in
    let acc := SetPassword acc (tokens !!! 2) in
    '(success, err) ← perform (UpsertAccountAtomically acc);
    if negb success then mret (Some errorAlreadyExists) else mret err.

Definition setpassword (tokens : list string) : prog (option error) :=
  if decide (length tokens ≠ 3) then
    usage "setpassword - sets a user's password"
          "Usage: setpassword username password"
  else
    r ← perform (RetrieveAccount (tokens !!! 1));
    match r with
    | Err err => mret (Some err)
    | Ok acc =>
        let acc := SetPassword acc (tokens !!! 2) in
        '(success, err) ← perform (UpsertAccountAtomically acc);
        if negb success then mret (Some errorTxFail) else mret err
    end.

Fixpoint rmuser_loop (usernames : list string) : prog (option error) :=
  match usernames with
  | [] => mret None
  | username :: usernames' =>
      err ← perform (DeleteAccount username);
      match err with
      | Some e => mret (Some e)
      | None => rmuser_loop usernames'
      end
  end.

Definition rmuser (tokens : list string) : prog (option error) :=
  if decide (length tokens < 2) then
    usage "rmuser - deletes user accounts"
          "Usage: rmuser username1 [username2] [username3] ..."
  else rmuser_loop (drop 1 tokens).

Definition rmusers (tokens : list string) : prog (option error) :=
  if decide (length tokens ≠ 2) then
    usage "rmusers - deletes all user accounts whose username begins with a certain prefix"
          "Usage: rmusers usernameprefix"
  else
    '(n, err) ← perform (DeleteMultipleAccounts (tokens !!! 1));
    (if decide (n = 1%Z) then Println "Deleted 1 account"
     else Printf ("Deleted " ++ pretty n ++ " accounts" ++ nl));;
    mret err.

Definition grant (tokens : list string) : prog (option error) :=
  if decide (length tokens < 3) then
    usage "grant - grants a user permission to view streams with one or more tags"
          "Usage: grant username tag1 [tag2] [tag3] ..."
  else
    r ← perform (RetrieveAccount (tokens !!! 1));
    match r with
    | Err err => mret (Some err)
    | Ok acc =>
        match Tags acc with
        | None => Panic "assignment to entry in nil map"
        | Some tags =>
            let acc := withTags acc (Some (grant_loop tags (drop 2 tokens))) in
            '(success, err) ← perform (UpsertAccountAtomically acc);
            if negb success then mret (Some errorTxFail) else mret err
        end
    end.

(** [fmt.Errorf("All user accounts are assigned the \"%s\" tag\n", accounts.PUBLIC_TAG)] *)
Definition publicIsAssigned : error :=
  "All user accounts are assigned the " ++ dq ++ PUBLIC_TAG ++ dq ++ " tag" ++ nl.

Definition revoke (tokens : list string) : prog (option error) :=
  if decide (length tokens < 3) then
    usage "revoke - revokes tags from a user's permission list"
          "Usage: revoke username tag1 [tag2] [tag3] ..."
  else
    r ← perform (RetrieveAccount (tokens !!! 1));
    match r with
    | Err err => mret (Some err)
    | Ok acc =>
        match revoke_loop (Tags acc) (drop 2 tokens) with
        | None => mret (Some publicIsAssigned)
        | Some tags =>
            let acc := withTags acc tags in
            '(success, err) ← perform (UpsertAccountAtomically acc);
            if negb success then mret (Some errorTxFail) else mret err
        end
    end.

Fixpoint showuser_loop (usernames : list string) : prog (option error) :=
  match usernames with
  | [] => mret None
  | username :: usernames' =>
      r ← perform (RetrieveAccount username);
      match r with
      | Err err => mret (Some err)
      | Ok acc =>
          tagSlice ← setToSlice (Tags acc);
          Printf (username ++ ": " ++ Join tagSlice " " ++ nl);;
          showuser_loop usernames'
      end
  end.

Definition showuser (tokens : list string) : prog (option error) :=
  if decide (length tokens < 2) then
    usage "showuser - shows the tags granted to a user or users"
          "Usage: showuser username1 [username2] [username3] ..."
  else showuser_loop (drop 1 tokens).

Fixpoint lsusers_loop (accs : list MrPlotterAccount) : prog unit :=
  match accs with
  | [] => mret tt
  | acc :: accs' =>
      match Tags acc with
      | None => Printf (Username acc ++ " [CORRUPT ENTRY]" ++ nl)
      | Some _ =>
          tagSlice ← setToSlice (Tags acc);
          Printf (Username acc ++ ": " ++ Join tagSlice " " ++ nl)
      end;;
      lsusers_loop accs'
  end.

Definition lsusers (tokens : list string) : prog (option error) :=
  if decide (length tokens ≠ 1 ∧ length tokens ≠ 2) then
    usage "lsusers - shows the tags granted to all user accounts whose names begin with a given prefix"
          "Usage: lsusers [prefix]"
  else
    let prefix := if decide (length tokens = 2) then tokens !!! 1 else "" in
    r ← perform (RetrieveMultipleAccounts prefix);
    match r with
    | Err err => mret (Some err)
    | Ok accs => lsusers_loop accs;; mret None
    end.

Definition deftag (tokens : list string) : prog (option error) :=
  if decide (length tokens < 3) then
    usage "deftag - defines a new tag, which is a unit of permissions that can be granted to a user"
          "Usage: deftag tag pathprefix1 [pathprefix2] ..."
  else if decide (tokens !!! 1 = ALL_TAG) then mret (Some errorAlreadyExists)
  else
    let pfxSet := sliceToSet (drop 2 tokens) in
    let tagdef := mkTagDef (tokens !!! 1) (Some pfxSet) 0 in
    '(success, err) ← perform (UpsertTagDefAtomically tagdef);
    if negb success then mret (Some errorAlreadyExists) else mret err.

(** The message is printed, and the loop body goes on to the delete. *)
Fixpoint undeftag_loop (tagnames : list string) : prog (option error) :=
  match tagnames with
  | [] => mret None
  | tagname :: tagnames' =>
      (if decide (tagname = ALL_TAG) then Printf cannotBeDeleted else mret tt);;
      err ← perform (DeleteTagDef tagname);
      match err with
      | Some e => mret (Some e)
      | None => undeftag_loop tagnames'
      end
  end.

Definition undeftag (tokens : list string) : prog (option error) :=
  if decide (length tokens < 2) then
    usage "undeftag - deletes tag definitions"
          "Usage: undeftag username"
  else undeftag_loop (drop 1 tokens).

Definition undeftags (tokens : list string) : prog (option error) :=
  if decide (length tokens ≠ 2) then
    usage "undeftags - deletes all tag definitions where the tag name begins with a certain prefix"
          "Usage: undeftags prefix"
  else
    '(n, err) ← perform (DeleteMultipleTagDefs (tokens !!! 1));
    (if decide (n = 1%Z) then Println "Deleted 1 tag definition"
     else Printf ("Deleted " ++ pretty n ++ " tag definitions" ++ nl));;
    mret err.

Definition addprefix (tokens : list string) : prog (option error) :=
  if decide (length tokens < 3) then
    usage "addprefix - adds a path prefix to a tag definition"
          "Usage: addprefix tag prefix1 [prefix2] [prefix3] ..."
  else if decide (tokens !!! 1 = ALL_TAG) then mret (Some cannotModify)
  else
    r ← perform (RetrieveTagDef (tokens !!! 1));
    match r with
    | Err err => mret (Some err)
    | Ok tagdef =>
        match PathPrefix tagdef with
        | None => Panic "assignment to entry in nil map"
        | Some pfxs =>
            let tagdef := withPathPrefix tagdef (Some (grant_loop pfxs (drop 2 tokens))) in
            '(success, err) ← perform (UpsertTagDefAtomically tagdef);
            if negb success then mret (Some errorTxFail) else mret err
        end
    end.

Definition rmprefix (tokens : list string) : prog (option error) :=
  if decide (length tokens < 3) then
    usage "rmprefix - removes a path prefix from a tag definition"
          "Usage: rmprefix tag prefix1 [prefix2] [prefix3] ..."
  else if decide (tokens !!! 1 = ALL_TAG) then mret (Some cannotModify)
  else
    r ← perform (RetrieveTagDef (tokens !!! 1));
    match r with
    | Err err => mret (Some err)
    | Ok tagdef =>
        match rmprefix_loop (PathPrefix tagdef) (drop 2 tokens) with
        | None => mret (Some atLeastOnePrefix)
        | Some pfxs =>
            let tagdef := withPathPrefix tagdef pfxs in
            '(success, err) ← perform (UpsertTagDefAtomically tagdef);
            if negb success then mret (Some errorTxFail) else mret err
        end
    end.

(** The test inside the loop reads [tokens[1]], here [first], whatever the
    tag at hand is. *)
Fixpoint showtagdef_loop (first : string) (tagnames : list string) : prog (option error) :=
  match tagnames with
  | [] => mret None
  | tagname :: tagnames' =>
      if decide (first = ALL_TAG) then
        Printf (ALL_TAG ++ ": " ++ ALL_TAG_SYMBOL ++ nl);;
        mret None
      else
        r ← perform (RetrieveTagDef tagname);
        match r with
        | Err err => mret (Some err)
        | Ok tagdef =>
            pfxSlice ← setToSlice (PathPrefix tagdef);
            Printf (tagname ++ ": " ++ Join pfxSlice " " ++ nl);;
            showtagdef_loop first tagnames'
        end
  end.

Definition showtagdef (tokens : list string) : prog (option error) :=
  if decide (length tokens < 2) then
    usage "showtagdef - lists the prefixes assigned to a tag"
          "Usage: showtagdef tag1 [tag2] [tag3] ..."
  else showtagdef_loop (tokens !!! 1) (drop 1 tokens).

Fixpoint lstagdefs_loop (tagdefs : list MrPlotterTagDef) : prog unit :=
  match tagdefs with
  | [] => mret tt
  | tagdef :: tagdefs' =>
      (if decide (Tag tagdef = ALL_TAG) then mret tt
       else match PathPrefix tagdef with
            | None => Printf (Tag tagdef ++ " [CORRUPT ENTRY]" ++ nl)
            | Some _ =>
                pfxSlice ← setToSlice (PathPrefix tagdef);
                Printf (Tag tagdef ++ ": " ++ Join pfxSlice " " ++ nl)
            end);;
      lstagdefs_loop tagdefs'
  end.

Definition lstagdefs (tokens : list string) : prog (option error) :=
  if decide (length tokens ≠ 1 ∧ length tokens ≠ 2) then
    usage "lstagdefs - lists the prefixes assigned to all tags whose names begin with a certain prefix"
          "Usage: lstagdefs [prefix]"
  else
    let prefix := if decide (length tokens = 2) then tokens !!! 1 else "" in
    r ← perform (RetrieveMultipleTagDefs prefix);
    match r with
    | Err err => mret (Some err)
    | Ok tagdefs =>
        (if String.prefix prefix ALL_TAG
         then Printf (ALL_TAG ++ ": " ++ ALL_TAG_SYMBOL ++ nl) else mret tt);;
        lstagdefs_loop tagdefs;;
        mret None
    end.

(** The loop over the accounts; a fresh [tagcache] is made for each one. *)
Fixpoint ls_loop (accs : list MrPlotterAccount) : prog (option error) :=
  match accs with
  | [] => mret None
  | acc :: accs' =>
      match Tags acc with
      | None =>
          Printf (Username acc ++ " [CORRUPT ENTRY]" ++ nl);;
          ls_loop accs'
      | Some tagSet =>
          let tagcache : gmap string (option (gset string)) := ∅ in
          resolved ← resolve tagcache tagSet;
          match resolved with
          | inl (tag, err) => mret (Some (couldNotRetrieve tag err))
          | inr prefixes =>
              pfxSlice ← setToSlice (Some prefixes);
              Printf (Username acc ++ ": " ++ Join pfxSlice " " ++ nl);;
              ls_loop accs'
          end
      end
  end.

Definition ls (tokens : list string) : prog (option error) :=
  if decide (length tokens ≠ 1 ∧ length tokens ≠ 2) then
    usage "ls - lists the path prefixes viewable by each user in the current configuration"
          "Usage: ls [prefix]"
  else
    let prefix := if decide (length tokens = 2) then tokens !!! 1 else "" in
    r ← perform (RetrieveMultipleAccounts prefix);
    match r with
    | Err err => mret (Some err)
    | Ok accs => ls_loop accs
    end.

Definition close (tokens : list string) : prog (option error) :=
  if decide (length tokens ≠ 1) then
    Println "Usage: close";;
    mret None
  else Exit 0.

Definition exit (tokens : list string) : prog (option error) :=
  if decide (length tokens ≠ 1) then
    Println "Usage: exit";;
    mret None
  else Exit 0.

Definition ops (opcode : string) : option (list string -> prog (option error)) :=
  if decide (opcode = "adduser") then Some adduser
  else if decide (opcode = "setpassword") then Some setpassword
  else if decide (opcode = "rmuser") then Some rmuser
  else if decide (opcode = "rmusers") then Some rmusers
  else if decide (opcode = "grant") then Some grant
  else if decide (opcode = "revoke") then Some revoke
  else if decide (opcode = "showuser") then Some showuser
  else if decide (opcode = "lsusers") then Some lsusers
  else if decide (opcode = "deftag") then Some deftag
  else if decide (opcode = "undeftag") then Some undeftag
  else if decide (opcode = "undeftags") then Some undeftags
  else if decide (opcode = "addprefix") then Some addprefix
  else if decide (opcode = "rmprefix") then Some rmprefix
  else if decide (opcode = "showtagdef") then Some showtagdef
  else if decide (opcode = "lstagdefs") then Some lstagdefs
  else if decide (opcode = "ls") then Some ls
  else if decide (opcode = "close") then Some close
  else if decide (opcode = "exit") then Some exit
  else None.

(** The keys of the map [ops]. *)
Definition opnames : gset string :=
  list_to_set ["adduser"; "setpassword"; "rmuser"; "rmusers"; "grant"; "revoke";
               "showuser"; "lsusers"; "deftag"; "undeftag"; "undeftags";
               "addprefix"; "rmprefix"; "showtagdef"; "lstagdefs"; "ls";
               "close"; "exit"].

Definition help : prog unit :=
  commands ← range opnames;
  Println "Type one of the following commands and press <Enter> or <Return> to execute it:";;
  Println (Join commands " ").

(** [accounts_exec(etcdClient, cmd)], from [tokens := strings.Fields(cmd)]
    on. *)
Definition accounts_exec (tokens : list string) : prog unit :=
  match tokens with
  | [] => mret tt
  | opcode :: _ =>
      if decide (opcode = "help") then help
      else match ops opcode with
           | Some op =>
               err ← op tokens;
               match err with
               | Some e => Printf ("Operation failed: " ++ e ++ nl)
               | None => mret tt
               end
           | None =>
               Printf ("'" ++ opcode ++ "' is not a valid command" ++ nl);;
               help
           end
  end.

End Repl.

(** ** [src/unnamed/part_000]: package [cli]

    Each command is the [exec] closure of a [MrPlotterCommand]; it writes its
    messages to the writer it is given and returns [argsOK].  The closures
    are called by [Run] alone, at the end of this module, and [Run] gives
    them the nil writer: a command as the package runs it is
    [Run exec args]. *)

Module Cli.

Definition AllTagSymbol : string := ALL_TAG_SYMBOL.
Definition txFail : string := errorTxFail.
Definition alreadyExists : string := errorAlreadyExists.

Definition sliceToSet (tagSlice : list string) : gset string :=
  list_to_set tagSlice.

Definition setToSlice (tagSet : option (gset string)) : prog (list string) :=
  rangeMap tagSet.

(** [fmt.Fprintln(output, message)] *)
Definition writeString (message : string) : prog unit := Println message.

(** [writeString(output, fmt.Sprintf(format, a...))], the format already
    instantiated *)
Definition writeStringf (message : string) : prog unit := writeString message.

(** Returns whether [err] was not nil. *)
Definition writeError (err : option error) : prog bool :=
  match err with
  | Some e => writeString e;; mret true
  | None => mret false
  end.

Definition adduser (tokens : list string) : prog bool :=
  if negb (bool_decide (3 ≤ length tokens)%nat) then mret false
  else
    let tagSet := sliceToSet (drop 3 tokens) in
    let tagSet := {[PUBLIC_TAG]} ∪ tagSet in
    let acc := mkAccount (tokens !!! 1) (Some tagSet) "" 0 in
    let acc := SetPassword acc (tokens !!! 2) in
    '(success, err) ← perform (UpsertAccountAtomically acc);
    if negb success then writeString alreadyExists;; mret true
    else writeError err;; mret true.

Definition setpassword (tokens : list string) : prog bool :=
  if negb (bool_decide (length tokens = 3)) then mret false
  else
    r ← perform (RetrieveAccount (tokens !!! 1));
    match r with
    | Err err => writeString err;; mret true
    | Ok acc =>
        let acc := SetPassword acc (tokens !!! 2) in
        '(success, err) ← perform (UpsertAccountAtomically acc);
        if negb success then writeString txFail;; mret true
        else writeError err;; mret true
    end.

Fixpoint rmuser_loop (usernames : list string) : prog bool :=
  match usernames with
  | [] => mret true
  | username :: usernames' =>
      err ← perform (DeleteAccount username);
      waserr ← writeError err;
      if waserr : bool then mret true else rmuser_loop usernames'
  end.

Definition rmuser (tokens : list string) : prog bool :=
  if negb (bool_decide (2 ≤ length tokens)%nat) then mret false
  else rmuser_loop (drop 1 tokens).

Definition rmusers (tokens : list string) : prog bool :=
  if negb (bool_decide (length tokens = 2)) then mret false
  else
    '(n, err) ← perform (DeleteMultipleAccounts (tokens !!! 1));
    (if decide (n = 1%Z) then writeString "Deleted 1 account"
     else writeStringf ("Deleted " ++ pretty n ++ " accounts" ++ nl));;
    writeError err;;
    mret true.

Definition grant (tokens : list string) : prog bool :=
  if negb (bool_decide (3 ≤ length tokens)%nat) then mret false
  else
    r ← perform (RetrieveAccount (tokens !!! 1));
    match r with
    | Err err => writeString err;; mret true
    | Ok acc =>
        match Tags acc with
        | None => Panic "assignment to entry in nil map"
        | Some tags =>
            let acc := withTags acc (Some (grant_loop tags (drop 2 tokens))) in
            '(success, err) ← perform (UpsertAccountAtomically acc);
            if negb success then writeString txFail;; mret true
            else writeError err;; mret true
        end
    end.

(** [fmt.Sprintf("All user accounts must be assigned the \"%s\" tag\n", accounts.PUBLIC_TAG)] *)
Definition publicMustBeAssigned : string :=
  "All user accounts must be assigned the " ++ dq ++ PUBLIC_TAG ++ dq ++ " tag" ++ nl.

Definition revoke (tokens : list string) : prog bool :=
  if negb (bool_decide (3 ≤ length tokens)%nat) then mret false
  else
    r ← perform (RetrieveAccount (tokens !!! 1));
    match r with
    | Err err => writeString err;; mret true
    | Ok acc =>
        match revoke_loop (Tags acc) (drop 2 tokens) with
        | None => writeStringf publicMustBeAssigned;; mret true
        | Some tags =>
            let acc := withTags acc tags in
            '(success, err) ← perform (UpsertAccountAtomically acc);
            if negb success then writeString txFail;; mret true
            else writeError err;; mret true
        end
    end.

Fixpoint showuser_loop (usernames : list string) : prog bool :=
  match usernames with
  | [] => mret true
  | username :: usernames' =>
      r ← perform (RetrieveAccount username);
      match r with
      | Err err => writeString err;; mret true
      | Ok acc =>
          tagSlice ← setToSlice (Tags acc);
          writeStringf (username ++ ": " ++ Join tagSlice " " ++ nl);;
          showuser_loop usernames'
      end
  end.

Definition showuser (tokens : list string) : prog bool :=
  if negb (bool_decide (2 ≤ length tokens)%nat) then mret false
  else showuser_loop (drop 1 tokens).

Fixpoint lsusers_loop (accs : list MrPlotterAccount) : prog unit :=
  match accs with
  | [] => mret tt
  | acc :: accs' =>
      match Tags acc with
      | None => writeStringf (Username acc ++ " [CORRUPT ENTRY]" ++ nl)
      | Some _ =>
          tagSlice ← setToSlice (Tags acc);
          writeStringf (Username acc ++ ": " ++ Join tagSlice " " ++ nl)
      end;;
      lsusers_loop accs'
  end.

Definition lsusers (tokens : list string) : prog bool :=
  if negb (bool_decide (length tokens = 1) || bool_decide (length tokens = 2)) then mret false
  else
    let prefix := if decide (length tokens = 2) then tokens !!! 1 else "" in
    r ← perform (RetrieveMultipleAccounts prefix);
    match r with
    | Err err => writeString err;; mret true
    | Ok accs => lsusers_loop accs;; mret true
    end.

Definition deftag (tokens : list string) : prog bool :=
  if negb (bool_decide (3 ≤ length tokens)%nat) then mret false
  else if decide (tokens !!! 1 = ALL_TAG) then writeString alreadyExists;; mret true
  else
    let pfxSet := sliceToSet (drop 2 tokens) in
    let tagdef := mkTagDef (tokens !!! 1) (Some pfxSet) 0 in
    '(success, err) ← perform (UpsertTagDefAtomically tagdef);
    if negb success then writeString alreadyExists;; mret true
    else writeError err;; mret true.

(** The message is written, and the closure returns. *)
Fixpoint undeftag_loop (tagnames : list string) : prog bool :=
  match tagnames with
  | [] => mret true
  | tagname :: tagnames' =>
      if decide (tagname = ALL_TAG) then
        writeStringf cannotBeDeleted;;
        mret true
      else
        err ← perform (DeleteTagDef tagname);
        waserr ← writeError err;
        if waserr : bool then mret true else undeftag_loop tagnames'
  end.

Definition undeftag (tokens : list string) : prog bool :=
  if negb (bool_decide (2 ≤ length tokens)%nat) then mret false
  else undeftag_loop (drop 1 tokens).

Definition undeftags (tokens : list string) : prog bool :=
  if negb (bool_decide (length tokens = 2)) then mret false
  else
    '(n, err) ← perform (DeleteMultipleTagDefs (tokens !!! 1));
    (if decide (n = 1%Z) then writeString "Deleted 1 tag definition"
     else writeStringf ("Deleted " ++ pretty n ++ " tag definitions" ++ nl));;
    writeError err;;
    mret true.

Definition addprefix (tokens : list string) : prog bool :=
  if negb (bool_decide (3 ≤ length tokens)%nat) then mret false
  else if decide (tokens !!! 1 = ALL_TAG) then writeStringf cannotModify;; mret true
  else
    r ← perform (RetrieveTagDef (tokens !!! 1));
    match r with
    | Err err => writeString err;; mret true
    | Ok tagdef =>
        match PathPrefix tagdef with
        | None => Panic "assignment to entry in nil map"
        | Some pfxs =>
            let tagdef := withPathPrefix tagdef (Some (grant_loop pfxs (drop 2 tokens))) in
            '(success, err) ← perform (UpsertTagDefAtomically tagdef);
            if negb success then writeString txFail;; mret true
            else writeError err;; mret true
        end
    end.

Definition rmprefix (tokens : list string) : prog bool :=
  if negb (bool_decide (3 ≤ length tokens)%nat) then mret false
  else if decide (tokens !!! 1 = ALL_TAG) then writeStringf cannotModify;; mret true
  else
    r ← perform (RetrieveTagDef (tokens !!! 1));
    match r with
    | Err err => writeString err;; mret true
    | Ok tagdef =>
        match rmprefix_loop (PathPrefix tagdef) (drop 2 tokens) with
        | None => writeString atLeastOnePrefix;; mret true
        | Some pfxs =>
            let tagdef := withPathPrefix tagdef pfxs in
            '(success, err) ← perform (UpsertTagDefAtomically tagdef);
            if negb success then writeString txFail;; mret true
            else writeError err;; mret true
        end
    end.

(** The test inside the loop reads [tokens[1]], here [first], whatever the
    tag at hand is. *)
Fixpoint showtagdef_loop (first : string) (tagnames : list string) : prog bool :=
  match tagnames with
  | [] => mret true
  | tagname :: tagnames' =>
      if decide (first = ALL_TAG) then
        writeStringf (ALL_TAG ++ ": " ++ AllTagSymbol ++ nl);;
        mret true
      else
        r ← perform (RetrieveTagDef tagname);
        match r with
        | Err err => writeString err;; mret true
        | Ok tagdef =>
            pfxSlice ← setToSlice (PathPrefix tagdef);
            writeStringf (tagname ++ ": " ++ Join pfxSlice " " ++ nl);;
            showtagdef_loop first tagnames'
        end
  end.

Definition showtagdef (tokens : list string) : prog bool :=
  if negb (bool_decide (2 ≤ length tokens)%nat) then mret false
  else showtagdef_loop (tokens !!! 1) (drop 1 tokens).

Fixpoint lstagdefs_loop (tagdefs : list MrPlotterTagDef) : prog unit :=
  match tagdefs with
  | [] => mret tt
  | tagdef :: tagdefs' =>
      (if decide (Tag tagdef = ALL_TAG) then mret tt
       else match PathPrefix tagdef with
            | None => writeStringf (Tag tagdef ++ " [CORRUPT ENTRY]" ++ nl)
            | Some _ =>
                pfxSlice ← setToSlice (PathPrefix tagdef);
                writeStringf (Tag tagdef ++ ": " ++ Join pfxSlice " " ++ nl)
            end);;
      lstagdefs_loop tagdefs'
  end.

Definition lstagdefs (tokens : list string) : prog bool :=
  if negb (bool_decide (length tokens = 1) || bool_decide (length tokens = 2)) then mret false
  else
    let prefix := if decide (length tokens = 2) then tokens !!! 1 else "" in
    r ← perform (RetrieveMultipleTagDefs prefix);
    match r with
    | Err err => writeString err;; mret true
    | Ok tagdefs =>
        (if String.prefix prefix ALL_TAG
         then writeStringf (ALL_TAG ++ ": " ++ AllTagSymbol ++ nl) else mret tt);;
        lstagdefs_loop tagdefs;;
        mret true
    end.

(** The loop over the accounts; the one [tagcache] made before the loop is
    what every account's resolution reads. *)
Fixpoint ls_loop (tagcache : gmap string (option (gset string)))
    (accs : list MrPlotterAccount) : prog bool :=
  match accs with
  | [] => mret true
  | acc :: accs' =>
      match Tags acc with
      | None =>
          writeStringf (Username acc ++ " [CORRUPT ENTRY]" ++ nl);;
          ls_loop tagcache accs'
      | Some tagSet =>
          resolved ← resolve tagcache tagSet;
          match resolved with
          | inl (tag, err) => writeStringf (couldNotRetrieve tag err);; mret true
          | inr prefixes =>
              pfxSlice ← setToSlice (Some prefixes);
              writeStringf (Username acc ++ ": " ++ Join pfxSlice " " ++ nl);;
              ls_loop tagcache accs'
          end
      end
  end.

Definition ls (tokens : list string) : prog bool :=
  if negb (bool_decide (length tokens = 1) || bool_decide (length tokens = 2)) then mret false
  else
    let prefix := if decide (length tokens = 2) then tokens !!! 1 else "" in
    r ← perform (RetrieveMultipleAccounts prefix);
    match r with
    | Err err => writeString err;; mret true
    | Ok accs =>
        let tagcache : gmap string (option (gset string)) := ∅ in
        ls_loop tagcache accs
    end.

(** [Children()]: the commands by name. *)
Definition Children (name : string) : option (list string -> prog bool) :=
  if decide (name = "adduser") then Some adduser
  else if decide (name = "setpassword") then Some setpassword
  else if decide (name = "rmuser") then Some rmuser
  else if decide (name = "rmusers") then Some rmusers
  else if decide (name = "grant") then Some grant
  else if decide (name = "revoke") then Some revoke
  else if decide (name = "showuser") then Some showuser
  else if decide (name = "lsusers") then Some lsusers
  else if decide (name = "deftag") then Some deftag
  else if decide (name = "undeftag") then Some undeftag
  else if decide (name = "undeftags") then Some undeftags
  else if decide (name = "addprefix") then Some addprefix
  else if decide (name = "rmprefix") then Some rmprefix
  else if decide (name = "showtagdef") then Some showtagdef
  else if decide (name = "lstagdefs") then Some lstagdefs
  else if decide (name = "ls") then Some ls
  else None.

(** [MrPlotterCommand.Run(ctx, output, args...)]: it calls
    [mpc.exec(ctx, nil, args...)], so the closure writes to the nil
    writer whatever [output] is. *)
Definition Run (exec : list string -> prog bool) (args : list string) : prog bool :=
  withNilOutput (exec args).

(** [MrPlotterCommand.Usage()] *)
Definition Usage (usageargs hint : string) : string :=
  " " ++ usageargs ++ nl ++ "This command " ++ hint ++ "." ++ nl.

End Cli.

(** ** A reference backend

    Modelled from the spec: the store behind package [accounts], which is not
    part of this repository.  It follows the contract of the specification
    (sections 4.2 and 6): a read returns the record with its version token or
    fails when the key is absent; a conditional write commits only when the
    token the record carries is the one stored (no record: token [0]);
    deletes are idempotent; a scan returns the records whose key starts with
    the prefix.  The theorems below hold for every backend; this one is used
    to run the commands on explicit stores. *)

Record Store := mkStore {
  accountsOf : gmap string MrPlotterAccount;
  tagdefsOf : gmap string MrPlotterTagDef;
  revision : N;
}.

Definition errNotFound : error := "record does not exist".

Definition storedAccRevision (st : Store) (username : string) : N :=
  match accountsOf st !! username with
  | Some acc => AccRevision acc
  | None => 0
  end.

Definition storedTagRevision (st : Store) (tag : string) : N :=
  match tagdefsOf st !! tag with
  | Some td => TagRevision td
  | None => 0
  end.

Definition hasPrefix {V} (prefix : string) (kv : string * V) : bool :=
  String.prefix prefix kv.1.

Definition scan {V} (prefix : string) (m : gmap string V) : list V :=
  snd <$> filter (fun kv => hasPrefix prefix kv = true) (map_to_list m).

Definition unscan {V} (prefix : string) (m : gmap string V) : gmap string V :=
  list_to_map (filter (fun kv => hasPrefix prefix kv = false) (map_to_list m)).

Definition memHandle (c : call) (st : Store) : resp c * Store :=
  match c return resp c * Store with
  | RetrieveAccount username =>
      (match accountsOf st !! username with
       | Some acc => Ok acc
       | None => Err errNotFound
       end, st)
  | UpsertAccountAtomically acc =>
      if decide (storedAccRevision st (Username acc) = AccRevision acc) then
        let rev := N.succ (revision st) in
        let acc' := mkAccount (Username acc) (Tags acc) (Password acc) rev in
        ((true, None),
         mkStore (<[Username acc := acc']> (accountsOf st)) (tagdefsOf st) rev)
      else ((false, None), st)
  | DeleteAccount username =>
      (None, mkStore (delete username (accountsOf st)) (tagdefsOf st) (revision st))
  | DeleteMultipleAccounts prefix =>
      ((Z.of_nat (length (scan prefix (accountsOf st))), None),
       mkStore (unscan prefix (accountsOf st)) (tagdefsOf st) (revision st))
  | RetrieveMultipleAccounts prefix =>
      (Ok (scan prefix (accountsOf st)), st)
  | RetrieveTagDef tag =>
      (match tagdefsOf st !! tag with
       | Some td => Ok td
       | None => Err errNotFound
       end, st)
  | UpsertTagDefAtomically td =>
      if decide (storedTagRevision st (Tag td) = TagRevision td) then
        let rev := N.succ (revision st) in
        let td' := mkTagDef (Tag td) (PathPrefix td) rev in
        ((true, None),
         mkStore (accountsOf st) (<[Tag td := td']> (tagdefsOf st)) rev)
      else ((false, None), st)
  | DeleteTagDef tag =>
      (None, mkStore (accountsOf st) (delete tag (tagdefsOf st)) (revision st))
  | DeleteMultipleTagDefs prefix =>
      ((Z.of_nat (length (scan prefix (tagdefsOf st))), None),
       mkStore (accountsOf st) (unscan prefix (tagdefsOf st)) (revision st))
  | RetrieveMultipleTagDefs prefix =>
      (Ok (scan prefix (tagdefsOf st)), st)
  end.

(** The reference store, ranging over maps in the order of [elements], and
    the same store with a runtime that ranges the other way round. *)
Definition memStore : Backend := mkBackend Store memHandle elements.
Definition memStoreRev : Backend := mkBackend Store memHandle (fun s => reverse (elements s)).

Definition emptyStore : Store := mkStore ∅ ∅ 0.

(** Runs a sequence of REPL commands, each on the store the previous one
    left. *)
Definition session (B : Backend) {A} (cmds : list (prog A)) (s : state B) : state B :=
  foldl (fun s p => final (run B p s)) s cmds.

(** ** What the statements below speak of *)

(** A write of an account carries the reserved tag. *)
Definition carries_public (c : call) : Prop :=
  match c with
  | UpsertAccountAtomically acc => has (Tags acc) PUBLIC_TAG = true
  | _ => True
  end.

(** A write of a tag definition carries at least one prefix. *)
Definition carries_prefix (c : call) : Prop :=
  match c with
  | UpsertTagDefAtomically td => (1 ≤ len (PathPrefix td))%nat
  | _ => True
  end.

(** The account [adduser] builds from its tokens. *)
Definition created (tokens : list string) : MrPlotterAccount :=
  mkAccount (tokens !!! 1)
            (Some ({[PUBLIC_TAG]} ∪ list_to_set (drop 3 tokens)))
            (tokens !!! 2) 0.

(** A store holding [alice] with the tags [teamA], [teamB] and ["public"],
    [bob] with ["public"] alone, and the tag [teamA] defined by one prefix. *)
Definition demoStore : Store :=
  session memStore
    [Repl.adduser ["adduser"; "alice"; "pw1"; "teamA"; "teamB"];
     Repl.adduser ["adduser"; "bob"; "pw2"];
     Repl.deftag ["deftag"; "teamA"; "/bldg1/"]]
    emptyStore.

(** [setToSlice(m)] as a backend's runtime produces it. *)
Definition slice (B : Backend) (m : option (gset string)) : list string :=
  match m with
  | Some s => order B s
  | None => []
  end.

(** The line [showtagdef] prints for a tag from the definition the store
    returned for it. *)
Definition tagdef_line (B : Backend) (tagname : string) (td : MrPlotterTagDef) : string :=
  tagname ++ ": " ++ Join (slice B (PathPrefix td)) " " ++ nl.

(** The retrieval of the definition of one of [tags] failed. *)
Definition lookup_failed (tags : list string) (l : list item) : Prop :=
  exists tag err, tag ∈ tags /\ Called (RetrieveTagDef tag) (Err err) ∈ l.

(** The store was asked for the definition of [tag]. *)
Definition looked_up (tag : string) (l : list item) : Prop :=
  exists answer, Called (RetrieveTagDef tag) answer ∈ l.

(** [line] is what a definition returned by the store makes [showtagdef]
    print. *)
Definition answered_line (B : Backend) (l : list item) (line : string) : Prop :=
  exists tag td,
    Called (RetrieveTagDef tag) (Ok td) ∈ l /\ line = tagdef_line B tag td.

(** The tag and error of a retrieval of a tag definition that failed. *)
Definition failed_lookup (i : item) : option (string * error) :=
  match i with
  | Called c r =>
      match c return resp c -> option (string * error) with
      | RetrieveTagDef tag =>
          fun r => match r with
                   | Err err => Some (tag, err)
                   | Ok _ => None
                   end
      | _ => fun _ => None
      end r
  | Printed _ => None
  end.

(** No retrieval of a tag definition failed. *)
Definition clean (l : list item) : Prop :=
  Forall (fun i => failed_lookup i = None) l.

(** The tag [teamA] is defined by two prefixes. *)
Definition twoPrefixStore : Store :=
  session memStore
    [Repl.addprefix ["addprefix"; "teamA"; "/bldg2/"]]
    demoStore.

(** A store with one corrupt entry: the account of [eve] decodes to a nil
    tag map. *)
Definition corruptStore : Store :=
  mkStore {["eve" := mkAccount "eve" None "pw" 1]} ∅ 1.

(** [alice] is granted ["all"] and a tag [ghost] that nobody defined. *)
Definition ghostStore : Store :=
  session memStore
    [Repl.adduser ["adduser"; "alice"; "pw1"; "all"; "ghost"]]
    emptyStore.

(** [alice] is granted ["all"]; ["public"] is defined. *)
Definition adminStore : Store :=
  session memStore
    [Repl.adduser ["adduser"; "alice"; "pw1"; "all"];
     Repl.deftag ["deftag"; "public"; "/pub/"]]
    emptyStore.


(** The store calls of a log, with their answers. *)
Definition store_part (l : list item) : list item :=
  filter (fun i => is_Some (call_of i)) l.
#[global] Arguments store_part : simpl never.

(** Two commands end the same way: both return, and an error on one side
    means an error on the other; or both exit with the same code; or both
    panic. *)
Definition same_outcome {A} (o1 o2 : outcome (option A)) : Prop :=
  match o1, o2 with
  | Returned e1, Returned e2 => e1 = None <-> e2 = None
  | Exited code1, Exited code2 => code1 = code2
  | Panicked _, Panicked _ => True
  | _, _ => False
  end.

(** Two runs made the same store calls, got the same answers, left the same
    store and ended the same way. *)
Definition same_effects {B : Backend} (r1 r2 : Run B (option error)) : Prop :=
  store_part (log r1) = store_part (log r2)
  /\ final r1 = final r2
  /\ same_outcome (res r1) (res r2).

(** A call that changes the store. *)
Definition is_write (c : call) : bool :=
  match c with
  | UpsertAccountAtomically _ | UpsertTagDefAtomically _
  | DeleteAccount _ | DeleteMultipleAccounts _
  | DeleteTagDef _ | DeleteMultipleTagDefs _ => true
  | _ => false
  end.

(** A call that leaves the store as it is. *)
Definition reads (c : call) : Prop := is_write c = false.

(** Every store call a command can make, whatever the answers, satisfies
    [P]. *)
Fixpoint only {A} (P : call -> Prop) (p : prog A) : Prop :=
  match p with
  | Ret _ => True
  | Do c k => P c /\ forall r, only P (k r)
  | Range _ k => forall l, only P (k l)
  | Out _ k => only P k
  | Exit _ => True
  | Panic _ => True
  end.

(** Every value a command can return, whatever the answers, satisfies
    [P]. *)
Fixpoint leaves {A} (P : A -> Prop) (p : prog A) : Prop :=
  match p with
  | Ret a => P a
  | Do _ k => forall r, leaves P (k r)
  | Range _ k => forall l, leaves P (k l)
  | Out _ k => leaves P k
  | Exit _ => True
  | Panic _ => True
  end.

Definition istrue (b : bool) : Prop := b = true.

(** A conditional write that the store did not commit. *)
Definition refused (i : item) : bool :=
  match i with
  | Called c r =>
      match c return resp c -> bool with
      | UpsertAccountAtomically _ => fun r => negb r.1
      | UpsertTagDefAtomically _ => fun r => negb r.1
      | _ => fun _ => false
      end r
  | Printed _ => false
  end.

(** The prefixes of the tag definitions the store returned. *)
Definition answered_prefixes (l : list item) : gset string :=
  foldr (fun i acc =>
           match i with
           | Called c r =>
               match c return resp c -> gset string with
               | RetrieveTagDef _ =>
                   fun r => match r with
                            | Ok td => default ∅ (PathPrefix td)
                            | Err _ => ∅
                            end
               | _ => fun _ => ∅
               end r ∪ acc
           | Printed _ => acc
           end) ∅ l.

(** The line a listing of accounts prints for one account, in the first
    table ([lsusers]) and in the later ones. *)
Definition legacy_lsusers_line (acc : MrPlotterAccount) : string :=
  match Tags acc with
  | None => Username acc ++ " [CORRUPT ENTRY]" ++ nl
  | Some _ => Username acc ++ nl
  end.

Definition lsusers_line (B : Backend) (acc : MrPlotterAccount) : string :=
  match Tags acc with
  | None => Username acc ++ " [CORRUPT ENTRY]" ++ nl
  | Some tags => Username acc ++ ": " ++ Join (order B tags) " " ++ nl
  end.

(** The store calls a log starts with, up to its first written line. *)
Fixpoint before_print (l : list item) : list item :=
  match l with
  | Called c r :: l' => Called c r :: before_print l'
  | _ => []
  end.

(** The store was asked for the definitions of [tags], one after the other,
    and returned a definition for each: that is all of [l]. *)
Definition all_answered (tags : list string) (l : list item) : Prop :=
  Forall2 (fun tag i => exists td, i = Called (RetrieveTagDef tag) (Ok td)) tags l.

(** * Properties *)

(** ** The reference backends *)

Lemma memStore_fair : fair memStore.
Proof. intros s. reflexivity. Qed.

Lemma memStoreRev_fair : fair memStoreRev.
Proof. intros s. simpl. apply reverse_Permutation. Qed.

(** ** Runs of composed commands *)

Section Runs.
Context (B : Backend).

Lemma run_bind {A C} (m : prog A) (f : A -> prog C) (s : state B) :
  run B (m ≫= f) s = then_run (run B m s) (fun a s' => run B (f a) s').
Proof.
  revert s. induction m as [a|c k IH|m k IH|line k IH|code|msg]; intros s; simpl.
  - unfold then_run; simpl. by destruct (run B (f a) s).
  - destruct (handle B c s) as [r s']. rewrite IH.
    unfold then_run, logged; simpl. by destruct (res (run B (k r) s')).
  - apply IH.
  - rewrite IH. unfold then_run, logged; simpl. by destruct (res (run B k s)).
  - done.
  - done.
Qed.

End Runs.

(** ** The loops on sets *)

Lemma has_true m k : has m k = true <-> exists s, m = Some s /\ k ∈ s.
Proof.
  destruct m as [s|]; simpl.
  - rewrite bool_decide_eq_true. split.
    + intros Hk. by exists s.
    + by intros (s' & [= <-] & Hk).
  - split; [done|]. by intros (s' & [=] & _).
Qed.

Lemma has_remove_ne m k k' : k ≠ k' -> has (remove m k') k = has m k.
Proof.
  intros Hne. destruct m as [s|]; simpl; [|done].
  apply bool_decide_ext. rewrite elem_of_difference, elem_of_singleton.
  split; [by intros [? _]|]. by intros ?; split.
Qed.

Lemma drop_elem_length {A} (x : A) n (l : list A) : x ∈ drop n l -> n < length l.
Proof.
  intros Hx. destruct (decide (n < length l)) as [|Hge]; [done|].
  rewrite drop_ge in Hx by lia. by apply elem_of_nil in Hx.
Qed.

(** [revoke_loop] stops exactly when ["public"] is among the tags. *)
Lemma revoke_loop_public tags l : PUBLIC_TAG ∈ l -> revoke_loop tags l = None.
Proof.
  revert tags. induction l as [|tag l IH]; intros tags Hin.
  - by apply elem_of_nil in Hin.
  - simpl. destruct (decide (tag = PUBLIC_TAG)) as [|Hne]; [done|].
    apply elem_of_cons in Hin as [Heq|Hin]; [by symmetry in Heq|].
    destruct (has tags tag); by apply IH.
Qed.

(** Whatever [revoke_loop] hands on for writing has kept ["public"]. *)
Lemma revoke_loop_keeps_public tags l tags' :
  revoke_loop tags l = Some tags' ->
  has tags' PUBLIC_TAG = has tags PUBLIC_TAG.
Proof.
  revert tags. induction l as [|tag l IH]; intros tags; simpl.
  - by intros [= ->].
  - destruct (decide (tag = PUBLIC_TAG)) as [|Hne]; [done|].
    destruct (has tags tag); intros Hloop; apply IH in Hloop; [|done].
    rewrite Hloop. by apply has_remove_ne.
Qed.

(** [rmtags_loop] steps over ["public"]. *)
Lemma rmtags_loop_keeps_public tags l :
  has (Legacy.rmtags_loop tags l) PUBLIC_TAG = has tags PUBLIC_TAG.
Proof.
  revert tags. induction l as [|tag l IH]; intros tags; simpl; [done|].
  destruct (decide (tag = "public")) as [|Hne]; [by apply IH|].
  destruct (has tags tag); rewrite IH; [|done].
  by apply has_remove_ne.
Qed.

(** [grant_loop] only adds tags. *)
Lemma grant_loop_grows tags l tag : tag ∈ tags -> tag ∈ grant_loop tags l.
Proof.
  unfold grant_loop. revert tags.
  induction l as [|tag' l IH]; intros tags Hin; [done|].
  cbn [foldl]. apply IH. case_bool_decide; [done|].
  apply elem_of_union. by right.
Qed.

(** ** Revoking ["public"] *)

Section Revoke.
Context (B : Backend).

(** The first table's [rmtags] reads the account and writes it back with the
    tags the loop left. *)
Lemma rmtags_run (s : state B) (tokens : list string) :
  ¬ length tokens < 3 ->
  let username := tokens !!! 1 in
  let r : result MrPlotterAccount := (handle B (RetrieveAccount username) s).1 in
  let s1 := (handle B (RetrieveAccount username) s).2 in
  calls (run B (Legacy.rmtags tokens) s) =
    match r with
    | Ok acc =>
        [RetrieveAccount username;
         UpsertAccountAtomically
           (withTags acc (Legacy.rmtags_loop (Tags acc) (drop 2 tokens)))]
    | Err _ => [RetrieveAccount username]
    end.
Proof.
  intros Hlen. unfold Legacy.rmtags. rewrite decide_False by done. cbn.
  destruct (handle B (RetrieveAccount (tokens !!! 1)) s) as [[acc|err] s1]; cbn; [|done].
  destruct (handle B _ s1) as [[success err] s2]; cbn.
  by destruct success.
Qed.

Lemma revoke_run_public (s : state B) (tokens : list string) :
  PUBLIC_TAG ∈ drop 2 tokens ->
  let username := tokens !!! 1 in
  let r : result MrPlotterAccount := (handle B (RetrieveAccount username) s).1 in
  let s1 := (handle B (RetrieveAccount username) s).2 in
  run B (Repl.revoke tokens) s =
    mkRun (Returned (Some (match r with
                           | Ok _ => Repl.publicIsAssigned
                           | Err err => err
                           end)))
          s1 [Called (RetrieveAccount username) r].
Proof.
  intros Hin. pose proof (drop_elem_length _ _ _ Hin) as Hlen.
  unfold Repl.revoke. rewrite decide_False by lia. cbn.
  destruct (handle B (RetrieveAccount (tokens !!! 1)) s) as [[acc|err] s1]; cbn; [|done].
  by rewrite revoke_loop_public.
Qed.

End Revoke.

(** ** The reserved tag of every account *)

(** C1.  Every account written carries the tag ["public"]: [adduser], in each
    of the three tables, issues exactly one store call, the conditional write
    of the account whose tags are the given ones together with ["public"];
    and when the account read by a revoke ([rmtags] of the first table,
    [revoke] of the two later ones) carries ["public"], so does every account
    that revoke writes, whatever tags it is asked to remove. *)
Theorem public_tag_invariant (B : Backend) (s : state B) :
  (forall tokens : list string,
     (3 ≤ length tokens)%nat ->
     calls (run B (Legacy.adduser tokens) s) = [UpsertAccountAtomically (created tokens)]
     /\ calls (run B (Repl.adduser tokens) s) = [UpsertAccountAtomically (created tokens)]
     /\ calls (run B (Cli.adduser tokens) s) = [UpsertAccountAtomically (created tokens)])
  /\ (forall (tokens : list string) (acc : MrPlotterAccount),
        (handle B (RetrieveAccount (tokens !!! 1)) s).1 = Ok acc ->
        has (Tags acc) PUBLIC_TAG = true ->
        Forall carries_public (calls (run B (Legacy.rmtags tokens) s))
        /\ Forall carries_public (calls (run B (Repl.revoke tokens) s))
        /\ Forall carries_public (calls (run B (Cli.revoke tokens) s))).
Proof.
  split.
  - intros tokens Hlen. repeat split.
    + unfold Legacy.adduser. rewrite decide_False by lia. cbn.
      destruct (handle B _ s) as [[success err] s1]; cbn. by destruct success.
    + unfold Repl.adduser. rewrite decide_False by lia. cbn.
      destruct (handle B _ s) as [[success err] s1]; cbn. by destruct success.
    + unfold Cli.adduser. rewrite bool_decide_eq_true_2 by lia. cbn.
      destruct (handle B _ s) as [[success err] s1]; cbn.
      destruct success; [|done]. by destruct err.
  - intros tokens acc Hread Hpub. repeat split.
    + unfold Legacy.rmtags. case_decide; [by constructor|]. cbn.
      destruct (handle B (RetrieveAccount _) s) as [r s1]; simpl in Hread; subst r; cbn.
      destruct (handle B _ s1) as [[success err] s2]; cbn.
      assert (has (Legacy.rmtags_loop (Tags acc) (drop 2 tokens)) PUBLIC_TAG = true)
        by (by rewrite rmtags_loop_keeps_public).
      destruct success; cbn; repeat constructor; done.
    + unfold Repl.revoke. case_decide; [by constructor|]. cbn.
      destruct (handle B (RetrieveAccount _) s) as [r s1]; simpl in Hread; subst r; cbn.
      destruct (revoke_loop (Tags acc) (drop 2 tokens)) as [tags|] eqn:Hloop; cbn.
      * apply revoke_loop_keeps_public in Hloop. rewrite Hpub in Hloop.
        destruct (handle B _ s1) as [[success err] s2]; cbn.
        destruct success; cbn; repeat constructor; done.
      * by repeat constructor.
    + unfold Cli.revoke. case_bool_decide; [|by constructor]. cbn.
      destruct (handle B (RetrieveAccount _) s) as [r s1]; simpl in Hread; subst r; cbn.
      destruct (revoke_loop (Tags acc) (drop 2 tokens)) as [tags|] eqn:Hloop; cbn.
      * apply revoke_loop_keeps_public in Hloop. rewrite Hpub in Hloop.
        destruct (handle B _ s1) as [[success err] s2]; cbn.
        destruct success; [destruct err|]; cbn; repeat constructor; done.
      * by repeat constructor.
Qed.

Lemma public_tag_invariant_witness :
  let alice := mkAccount "alice" (Some {["public"; "teamA"; "teamB"]}) "pw1" 1 in
  ((3 ≤ length ["adduser"; "carol"; "pw3"; "teamB"])%nat
   /\ calls (run memStore (Cli.adduser ["adduser"; "carol"; "pw3"; "teamB"]) demoStore)
      = [UpsertAccountAtomically (created ["adduser"; "carol"; "pw3"; "teamB"])])
  /\ ((handle memStore (RetrieveAccount (["revoke"; "alice"; "teamA"] !!! 1)) demoStore).1
        = Ok alice
      /\ has (Tags alice) PUBLIC_TAG = true
      /\ Forall carries_public
           (calls (run memStore (Repl.revoke ["revoke"; "alice"; "teamA"]) demoStore))).
Proof.
  intros alice.
  pose proof (public_tag_invariant memStore demoStore) as [Hadd Hrev].
  split.
  - split; [simpl; lia|]. apply Hadd. simpl; lia.
  - assert ((handle memStore (RetrieveAccount (["revoke"; "alice"; "teamA"] !!! 1))
               demoStore).1 = Ok alice) as Hread by (vm_compute; reflexivity).
    assert (has (Tags alice) PUBLIC_TAG = true) as Hpub by (vm_compute; reflexivity).
    split; [exact Hread|]. split; [exact Hpub|].
    exact (proj1 (proj2 (Hrev ["revoke"; "alice"; "teamA"] alice Hread Hpub))).
Defined.

(** The other commands that write an account, [setpassword] and the grant of
    tags, hand on ["public"] as well. *)
Lemma other_writes_carry_public (B : Backend) (s : state B) (tokens : list string)
    (acc : MrPlotterAccount) :
  (handle B (RetrieveAccount (tokens !!! 1)) s).1 = Ok acc ->
  has (Tags acc) PUBLIC_TAG = true ->
  Forall carries_public (calls (run B (Legacy.setpassword tokens) s))
  /\ Forall carries_public (calls (run B (Repl.setpassword tokens) s))
  /\ Forall carries_public (calls (run B (Cli.setpassword tokens) s))
  /\ Forall carries_public (calls (run B (Legacy.addtags tokens) s))
  /\ Forall carries_public (calls (run B (Repl.grant tokens) s))
  /\ Forall carries_public (calls (run B (Cli.grant tokens) s)).
Proof.
  intros Hread Hpub.
  pose proof Hpub as (tags & Htags & Hin)%has_true.
  assert (has (Some (grant_loop tags (drop 2 tokens))) PUBLIC_TAG = true) as Hgrant
    by (apply has_true; eexists; split; [done|by apply grant_loop_grows]).
  repeat split.
  - unfold Legacy.setpassword. case_decide; [by constructor|]. cbn.
    destruct (handle B (RetrieveAccount _) s) as [r s1]; simpl in Hread; subst r; cbn.
    destruct (handle B _ s1) as [[success err] s2]; cbn.
    destruct success; cbn; repeat constructor; done.
  - unfold Repl.setpassword. case_decide; [by constructor|]. cbn.
    destruct (handle B (RetrieveAccount _) s) as [r s1]; simpl in Hread; subst r; cbn.
    destruct (handle B _ s1) as [[success err] s2]; cbn.
    destruct success; cbn; repeat constructor; done.
  - unfold Cli.setpassword. case_bool_decide; [|by constructor]. cbn.
    destruct (handle B (RetrieveAccount _) s) as [r s1]; simpl in Hread; subst r; cbn.
    destruct (handle B _ s1) as [[success err] s2]; cbn.
    destruct success; [destruct err|]; cbn; repeat constructor; done.
  - unfold Legacy.addtags. case_decide; [by constructor|]. cbn.
    destruct (handle B (RetrieveAccount _) s) as [r s1]; simpl in Hread; subst r; cbn.
    rewrite Htags. cbn.
    destruct (handle B _ s1) as [[success err] s2]; cbn.
    destruct success; cbn; repeat constructor; done.
  - unfold Repl.grant. case_decide; [by constructor|]. cbn.
    destruct (handle B (RetrieveAccount _) s) as [r s1]; simpl in Hread; subst r; cbn.
    rewrite Htags. cbn.
    destruct (handle B _ s1) as [[success err] s2]; cbn.
    destruct success; cbn; repeat constructor; done.
  - unfold Cli.grant. case_bool_decide; [|by constructor]. cbn.
    destruct (handle B (RetrieveAccount _) s) as [r s1]; simpl in Hread; subst r; cbn.
    rewrite Htags. cbn.
    destruct (handle B _ s1) as [[success err] s2]; cbn.
    destruct success; [destruct err|]; cbn; repeat constructor; done.
Qed.

(** C7 fails on the first table: asked to remove [teamA] and ["public"] from
    [alice], [rmtags] writes the account back without [teamA], and succeeds. *)
Lemma rmtags_public_writes :
  let tokens := ["rmtags"; "alice"; "teamA"; "public"] in
  let r := run memStore (Legacy.rmtags tokens) demoStore in
  PUBLIC_TAG ∈ drop 2 tokens
  /\ res r = Returned None
  /\ calls r =
       [RetrieveAccount "alice";
        UpsertAccountAtomically
          (mkAccount "alice" (Some {["public"; "teamB"]}) "pw1" 1)]
  /\ Tags <$> (accountsOf (final r) !! "alice") = Some (Some {["public"; "teamB"]}).
Proof.
  split; [unfold PUBLIC_TAG; simpl; set_solver|].
  vm_compute. done.
Qed.

(** ** The last prefix of a tag definition *)

Lemma len_remove pfxs pfx :
  has pfxs pfx = true -> len pfxs = S (len (remove pfxs pfx)).
Proof.
  intros (s & -> & Hin)%has_true. simpl.
  rewrite size_difference by (by apply singleton_subseteq_l).
  rewrite size_singleton.
  assert (size s ≠ 0) by (apply size_non_empty_iff; set_solver).
  lia.
Qed.

(** What [rmprefix_loop] hands on for writing is not empty when it started
    from a set that is not. *)
Lemma rmprefix_loop_nonempty pfxs l pfxs' :
  rmprefix_loop pfxs l = Some pfxs' -> (1 ≤ len pfxs)%nat -> (1 ≤ len pfxs')%nat.
Proof.
  revert pfxs. induction l as [|pfx l IH]; intros pfxs; simpl.
  - by intros [= ->].
  - destruct (has pfxs pfx) eqn:Hhas; [|by apply IH].
    destruct (decide (len pfxs = 1)) as [|Hne]; [done|].
    intros Hloop Hlen. apply (IH _ Hloop).
    apply len_remove in Hhas. lia.
Qed.

(** On a set of one prefix the loop stops at that prefix. *)
Lemma rmprefix_loop_last pfx l : pfx ∈ l -> rmprefix_loop (Some {[pfx]}) l = None.
Proof.
  induction l as [|pfx' l IH]; intros Hin; [by apply elem_of_nil in Hin|].
  cbn [rmprefix_loop has]. case_bool_decide as Hhas.
  - rewrite decide_True; [done|]. apply (size_singleton (C := gset string)).
  - apply IH. apply elem_of_cons in Hin as [->|Hin]; [|done].
    by apply not_elem_of_singleton in Hhas.
Qed.

(** ** Deleting the tag ["all"] *)

(** Package [cli] never asks the store to delete ["all"]. *)
Lemma cli_undeftag_spares_all (B : Backend) (s : state B) (tokens : list string) :
  DeleteTagDef ALL_TAG ∉ calls (run B (Cli.undeftag tokens) s).
Proof.
  unfold Cli.undeftag. case_bool_decide; cbn [negb]; [|by apply not_elem_of_nil].
  generalize (drop 1 tokens) as tagnames. clear. intros tagnames. revert s.
  induction tagnames as [|tagname tagnames IH]; intros s; [by apply not_elem_of_nil|].
  cbn [Cli.undeftag_loop]. case_decide as Hall; [by apply not_elem_of_nil|].
  cbn. destruct (handle B (DeleteTagDef tagname) s) as [err s1].
  destruct err as [e|]; cbn.
  - apply not_elem_of_cons. split; [congruence|apply not_elem_of_nil].
  - apply not_elem_of_cons. split; [congruence|apply IH].
Qed.

(** C8, at [undeftag all] in the second REPL: the message that the tag cannot
    be deleted is printed, and the delete of ["all"] is then sent to the
    store, whatever the store. *)
Theorem undeftag_all_is_deleted (B : Backend) (s : state B) :
  let r := run B (Repl.undeftag ["undeftag"; "all"]) s in
  output r = [cannotBeDeleted]
  /\ calls r = [DeleteTagDef ALL_TAG]
  /\ final r = (handle B (DeleteTagDef ALL_TAG) s).2.
Proof.
  unfold Repl.undeftag, ALL_TAG. rewrite decide_False by (simpl; lia).
  cbn [drop Repl.undeftag_loop]. rewrite decide_True by done. cbn.
  destruct (handle B (DeleteTagDef "all") s) as [err s1].
  by destruct err.
Qed.

(** ** [showtagdef] and the tag ["all"] *)

Section ShowTagDef.
Context (B : Backend).

Lemma run_setToSlice (m : option (gset string)) (s : state B) :
  run B (rangeMap m) s = mkRun (Returned (slice B m)) s [].
Proof. by destruct m. Qed.

(** One turn of the loop when [tokens[1]] is not ["all"]. *)
Lemma repl_showtagdef_step first tagname tagnames (s : state B) :
  first ≠ ALL_TAG ->
  run B (Repl.showtagdef_loop first (tagname :: tagnames)) s =
    match handle B (RetrieveTagDef tagname) s with
    | (Err err, s1) =>
        mkRun (Returned (Some err)) s1 [Called (RetrieveTagDef tagname) (Err err)]
    | (Ok td, s1) =>
        logged (Called (RetrieveTagDef tagname) (Ok td))
          (logged (Printed (tagdef_line B tagname td))
             (run B (Repl.showtagdef_loop first tagnames) s1))
    end.
Proof.
  intros Hfirst. cbn [Repl.showtagdef_loop]. rewrite decide_False by done. cbn.
  destruct (handle B (RetrieveTagDef tagname) s) as [[td|err] s1]; [|done].
  rewrite run_bind. unfold Repl.setToSlice. rewrite run_setToSlice.
  unfold then_run, logged; cbn. done.
Qed.

Lemma answered_line_later i l line :
  answered_line B l line -> answered_line B (i :: l) line.
Proof.
  intros (tag & td & Hin & ->). exists tag, td. split; [|done].
  by apply list_elem_of_further.
Qed.

Lemma lookup_failed_later tags i l :
  lookup_failed tags l -> lookup_failed tags (i :: l).
Proof.
  intros (tag & err & Hin & Hlog). exists tag, err.
  split; [done|]. by apply list_elem_of_further.
Qed.

Lemma lookup_failed_more tag tags l :
  lookup_failed tags l -> lookup_failed (tag :: tags) l.
Proof.
  intros (tag' & err & Hin & Hlog). exists tag', err.
  split; [|done]. by apply list_elem_of_further.
Qed.

Lemma looked_up_later tag i l : looked_up tag l -> looked_up tag (i :: l).
Proof. intros (answer & Hin). exists answer. by apply list_elem_of_further. Qed.

(** With another tag first, the loop reaches ["all"] unless an earlier
    retrieval failed, and then asks the store for it. *)
Lemma repl_showtagdef_reaches_all first pre post (s : state B) :
  first ≠ ALL_TAG ->
  let l := log (run B (Repl.showtagdef_loop first (pre ++ ALL_TAG :: post)) s) in
  lookup_failed pre l \/ looked_up ALL_TAG l.
Proof.
  intros Hfirst. revert s. induction pre as [|tag pre IH]; intros s; cbn zeta.
  - right. rewrite app_nil_l, repl_showtagdef_step by done.
    destruct (handle B (RetrieveTagDef ALL_TAG) s) as [[td|err] s1].
    + exists (Ok td). apply list_elem_of_here.
    + exists (Err err). apply list_elem_of_here.
  - rewrite <- app_comm_cons, repl_showtagdef_step by done.
    destruct (handle B (RetrieveTagDef tag) s) as [[td|err] s1].
    + destruct (IH s1) as [Hfail|Hall].
      * left. cbn. by apply lookup_failed_more; do 2 apply lookup_failed_later.
      * right. cbn. by do 2 apply looked_up_later.
    + left. exists tag, err. split; apply list_elem_of_here.
Qed.

(** With another tag first, every line the second REPL prints is the line of
    a definition the store returned. *)
Lemma repl_showtagdef_lines first tagnames (s : state B) :
  first ≠ ALL_TAG ->
  let r := run B (Repl.showtagdef_loop first tagnames) s in
  Forall (answered_line B (log r)) (output r).
Proof.
  intros Hfirst. revert s.
  induction tagnames as [|tag tagnames IH]; intros s; cbn zeta; [by constructor|].
  rewrite repl_showtagdef_step by done.
  destruct (handle B (RetrieveTagDef tag) s) as [[td|err] s1]; [|by constructor].
  cbn. constructor.
  - exists tag, td. split; [apply list_elem_of_here|done].
  - eapply Forall_impl; [apply (IH s1)|].
    intros line Hline. by do 2 apply answered_line_later.
Qed.

End ShowTagDef.

(** ** Listing effective permissions *)

Section Ls.
Context (B : Backend).

Lemma run_resolve tagcache tagSet (s : state B) :
  run B (resolve tagcache tagSet) s = run B (ls_tags tagcache ∅ (order B tagSet)) s.
Proof.
  unfold resolve. rewrite run_bind. cbn. unfold then_run; cbn.
  by destruct (run B _ s).
Qed.

Lemma ls_tags_all tagcache prefixes tags (s : state B) :
  run B (ls_tags tagcache prefixes (ALL_TAG :: tags)) s =
    mkRun (Returned (inr {[ALL_TAG_SYMBOL]})) s [].
Proof. cbn [ls_tags]. by rewrite decide_True. Qed.

(** One turn of the loop on a tag that is not ["all"], the cache being
    empty as the commands have it. *)
Lemma ls_tags_step prefixes tag tags (s : state B) :
  tag ≠ ALL_TAG ->
  run B (ls_tags ∅ prefixes (tag :: tags)) s =
    match handle B (RetrieveTagDef tag) s with
    | (Err err, s1) =>
        mkRun (Returned (inl (tag, err))) s1 [Called (RetrieveTagDef tag) (Err err)]
    | (Ok td, s1) =>
        logged (Called (RetrieveTagDef tag) (Ok td))
          (run B (ls_tags ∅ (prefixes ∪ default ∅ (PathPrefix td)) tags) s1)
    end.
Proof.
  intros Htag. cbn [ls_tags]. rewrite decide_False by done.
  rewrite lookup_empty. cbn.
  by destruct (handle B (RetrieveTagDef tag) s) as [[td|err] s1].
Qed.

Lemma clean_app l1 l2 : clean (l1 ++ l2) <-> clean l1 /\ clean l2.
Proof. apply Forall_app. Qed.

Lemma clean_failed tag err l :
  clean l -> Called (RetrieveTagDef tag) (Err err) ∉ l.
Proof.
  intros Hclean Hin. unfold clean in Hclean. rewrite Forall_forall in Hclean.
  by specialize (Hclean _ Hin).
Qed.

(** The loop either runs through, every retrieval answered, or stops at the
    first retrieval that fails, which is then the last thing that happened. *)
Lemma ls_tags_outcome prefixes tags (s : state B) :
  let r := run B (ls_tags ∅ prefixes tags) s in
  (exists p, res r = Returned (inr p) /\ clean (log r))
  \/ (exists tag err l,
        tag ∈ tags /\ res r = Returned (inl (tag, err))
        /\ log r = (l ++ [Called (RetrieveTagDef tag) (Err err)])%list /\ clean l).
Proof.
  revert prefixes s. induction tags as [|tag tags IH]; intros prefixes s; cbn zeta.
  - left. exists prefixes. split; [done|by constructor].
  - destruct (decide (tag = ALL_TAG)) as [->|Htag].
    + rewrite ls_tags_all. left. eexists. split; [done|by constructor].
    + rewrite ls_tags_step by done.
      destruct (handle B (RetrieveTagDef tag) s) as [[td|err] s1].
      * destruct (IH (prefixes ∪ default ∅ (PathPrefix td)) s1)
          as [(p & Hres & Hclean)|(tag' & err & l & Hin & Hres & Hlog & Hclean)].
        -- left. exists p. split; [done|]. by constructor.
        -- right. exists tag', err, (Called (RetrieveTagDef tag) (Ok td) :: l).
           split; [by apply list_elem_of_further|]. split; [done|].
           split; [cbn; by rewrite Hlog|by constructor].
      * right. exists tag, err, []. split; [apply list_elem_of_here|].
        split; [done|]. split; [done|by constructor].
Qed.

(** With ["all"] among the tags, the retrievals are those of the tags visited
    before it, up to the first that fails; if none fails the loop leaves the
    symbol for all streams alone in [prefixes]. *)
Lemma ls_tags_before_all prefixes pre post (s : state B) :
  ALL_TAG ∉ pre ->
  let r := run B (ls_tags ∅ prefixes (pre ++ ALL_TAG :: post)) s in
  calls r `prefix_of` (RetrieveTagDef <$> pre)
  /\ (res r = Returned (inr {[ALL_TAG_SYMBOL]})
      \/ exists tag err,
           tag ∈ pre /\ res r = Returned (inl (tag, err))
           /\ Called (RetrieveTagDef tag) (Err err) ∈ log r).
Proof.
  revert prefixes s. induction pre as [|tag pre IH]; intros prefixes s Hpre; cbn zeta.
  - rewrite app_nil_l, ls_tags_all. split; [done|by left].
  - apply not_elem_of_cons in Hpre as [Htag Hpre].
    rewrite <- app_comm_cons, ls_tags_step by done.
    destruct (handle B (RetrieveTagDef tag) s) as [[td|err] s1].
    + destruct (IH (prefixes ∪ default ∅ (PathPrefix td)) s1 Hpre) as [Hcalls Hres].
      split.
      * unfold calls; cbn. by apply prefix_cons.
      * destruct Hres as [Hres|(tag' & err & Hin & Hres & Hlog)]; [by left|].
        right. exists tag', err. split; [by apply list_elem_of_further|].
        split; [done|]. by apply list_elem_of_further.
    + split.
      * unfold calls; cbn. apply prefix_cons, prefix_nil.
      * right. exists tag, err. split; [apply list_elem_of_here|].
        split; [done|apply list_elem_of_here].
Qed.

(** How a listing ends: [ended_clean] when no retrieval failed, [ended_at]
    when the retrieval of [tag] failed with [err] and [tail] is all that
    happened afterwards. *)
Lemma failed_in tag err tag' err' l tail :
  clean l -> clean tail ->
  Called (RetrieveTagDef tag) (Err err)
    ∈ (l ++ Called (RetrieveTagDef tag') (Err err') :: tail)%list ->
  tag = tag' /\ err = err'.
Proof.
  intros Hl Htail [Hin|Hin]%elem_of_app.
  - by apply clean_failed in Hin.
  - apply elem_of_cons in Hin as [Heq|Hin].
    + apply (f_equal failed_lookup) in Heq. cbn in Heq. by injection Heq.
    + by apply clean_failed in Hin.
Qed.

Lemma repl_ls_loop_outcome accs (s : state B) :
  let r := run B (Repl.ls_loop accs) s in
  (res r = Returned None /\ clean (log r))
  \/ (exists tag err l,
        res r = Returned (Some (couldNotRetrieve tag err))
        /\ log r = (l ++ [Called (RetrieveTagDef tag) (Err err)])%list /\ clean l).
Proof.
  revert s. induction accs as [|acc accs IH]; intros s; cbn zeta.
  - left. split; [done|by constructor].
  - cbn [Repl.ls_loop]. destruct (Tags acc) as [tagSet|].
    + rewrite run_bind.
      pose proof (ls_tags_outcome ∅ (order B tagSet) s) as Hout.
      rewrite <- run_resolve in Hout.
      destruct (run B (resolve ∅ tagSet) s) as [r0 s1 l0]; cbn in Hout.
      destruct Hout as [(p & -> & Hclean)|(tag & err & l & _ & -> & -> & Hclean)];
        unfold then_run; cbn.
      * destruct (IH s1) as [[Hres Hrest]|(tag & err & l & Hres & Hlog & Hrest)].
        -- left. split; [done|]. apply clean_app. split; [done|]. by constructor.
        -- right. eexists tag, err, (l0 ++ Printed _ :: l)%list.
           split; [done|]. split.
           ++ rewrite <- app_assoc. cbn [app]. by rewrite <- Hlog.
           ++ apply clean_app. split; [done|]. by constructor.
      * right. exists tag, err, l. by rewrite app_nil_r.
    + cbn. destruct (IH s) as [[Hres Hrest]|(tag & err & l & Hres & Hlog & Hrest)].
      * left. split; [done|]. by constructor.
      * right. eexists tag, err, (Printed _ :: l). split; [done|].
        split; [cbn [app]; by rewrite <- Hlog|by constructor].
Qed.

Lemma cli_ls_loop_outcome accs (s : state B) :
  let r := run B (Cli.ls_loop ∅ accs) s in
  res r = Returned true
  /\ (clean (log r)
      \/ exists tag err l,
           log r = (l ++ [Called (RetrieveTagDef tag) (Err err);
                          Printed (couldNotRetrieve tag err ++ nl)])%list
           /\ clean l).
Proof.
  revert s. induction accs as [|acc accs IH]; intros s; cbn zeta.
  - split; [done|]. left. by constructor.
  - cbn [Cli.ls_loop]. destruct (Tags acc) as [tagSet|].
    + rewrite run_bind.
      pose proof (ls_tags_outcome ∅ (order B tagSet) s) as Hout.
      rewrite <- run_resolve in Hout.
      destruct (run B (resolve ∅ tagSet) s) as [r0 s1 l0]; cbn in Hout.
      destruct Hout as [(p & -> & Hclean)|(tag & err & l & _ & -> & -> & Hclean)];
        unfold then_run; cbn.
      * destruct (IH s1) as [Hres [Hrest|(tag & err & l & Hlog & Hrest)]].
        -- split; [done|]. left. apply clean_app. split; [done|]. by constructor.
        -- split; [done|]. right. eexists tag, err, (l0 ++ Printed _ :: l)%list.
           split.
           ++ rewrite <- app_assoc. cbn [app]. by rewrite <- Hlog.
           ++ apply clean_app. split; [done|]. by constructor.
      * split; [done|]. right. exists tag, err, l. split; [|done].
        by rewrite <- app_assoc.
    + cbn. destruct (IH s) as [Hres [Hrest|(tag & err & l & Hlog & Hrest)]].
      * split; [done|]. left. by constructor.
      * split; [done|]. right. eexists tag, err, (Printed _ :: l).
        split; [cbn [app]; by rewrite <- Hlog|by constructor].
Qed.

End Ls.

Section LsCommands.
Context (B : Backend).

Lemma repl_ls_outcome tokens (s : state B) :
  let r := run B (Repl.ls tokens) s in
  clean (log r)
  \/ (exists tag err l,
        res r = Returned (Some (couldNotRetrieve tag err))
        /\ log r = (l ++ [Called (RetrieveTagDef tag) (Err err)])%list /\ clean l).
Proof.
  cbn zeta. unfold Repl.ls. case_decide.
  - left. cbn. by repeat constructor.
  - cbn. destruct (handle B _ s) as [[accs|err] s1]; cbn.
    + destruct (repl_ls_loop_outcome B accs s1)
        as [[Hres Hrest]|(tag & err & l & Hres & Hlog & Hrest)].
      * left. constructor; [done|exact Hrest].
      * right. eexists tag, err, (_ :: l).
        split; [done|]. split; [cbn [app]; by rewrite <- Hlog|by constructor].
    + left. by repeat constructor.
Qed.

Lemma cli_ls_outcome tokens (s : state B) :
  let r := run B (Cli.ls tokens) s in
  clean (log r)
  \/ (exists tag err l,
        res r = Returned true
        /\ log r = (l ++ [Called (RetrieveTagDef tag) (Err err);
                          Printed (couldNotRetrieve tag err ++ nl)])%list
        /\ clean l).
Proof.
  cbn zeta. unfold Cli.ls. destruct (negb _).
  - left. cbn. by repeat constructor.
  - cbn. destruct (handle B _ s) as [[accs|err] s1]; cbn.
    + destruct (cli_ls_loop_outcome B accs s1)
        as [Hres [Hrest|(tag & err & l & Hlog & Hrest)]].
      * left. constructor; [done|exact Hrest].
      * right. eexists tag, err, (_ :: l).
        split; [done|]. split; [cbn [app]; by rewrite <- Hlog|by constructor].
    + left. by repeat constructor.
Qed.

End LsCommands.



(** ** The first table and the second REPL *)

Section Tables.
Context (B : Backend).

(** The loop of [rmtags] and the loop of [revoke] agree on tags without
    ["public"]. *)
Lemma revoke_loop_rmtags_loop tags l :
  PUBLIC_TAG ∉ l -> revoke_loop tags l = Some (Legacy.rmtags_loop tags l).
Proof.
  revert tags. induction l as [|tag l IH]; intros tags Hnin; [done|].
  apply not_elem_of_cons in Hnin as [Hne Hnin]. cbn.
  unfold PUBLIC_TAG in *. destruct (decide (tag = "public")); [done|].
  destruct (has tags tag); by apply IH.
Qed.

Lemma store_part_printed line l : store_part (Printed line :: l) = store_part l.
Proof. unfold store_part. apply filter_cons_False. cbn. by intros [? [=]]. Qed.

Lemma store_part_called c r l :
  store_part (Called c r :: l) = Called c r :: store_part l.
Proof. unfold store_part. apply filter_cons_True. cbn. by eexists. Qed.

Lemma store_part_app l1 l2 :
  store_part (l1 ++ l2) = (store_part l1 ++ store_part l2)%list.
Proof. apply filter_app. Qed.

(** The printing loops make no store call. *)
Lemma legacy_lsusers_loop_quiet accs (s : state B) :
  let r := run B (Legacy.lsusers_loop accs) s in
  res r = Returned tt /\ final r = s /\ store_part (log r) = [].
Proof.
  induction accs as [|acc accs IH]; [done|].
  cbn zeta in *. cbn [Legacy.lsusers_loop].
  destruct IH as (Hres & Hfinal & Hlog).
  destruct (Tags acc); cbn [run mbind prog_bind bind Println Printf write logged res final log];
    by rewrite store_part_printed.
Qed.

Lemma repl_lsusers_loop_quiet accs (s : state B) :
  let r := run B (Repl.lsusers_loop accs) s in
  res r = Returned tt /\ final r = s /\ store_part (log r) = [].
Proof.
  induction accs as [|acc accs IH]; [done|].
  cbn zeta in *. cbn [Repl.lsusers_loop].
  destruct IH as (Hres & Hfinal & Hlog).
  destruct (Tags acc);
    cbn [run mbind prog_bind bind Println Printf write logged res final log
         Repl.setToSlice rangeMap range];
    by rewrite store_part_printed.
Qed.

Ltac unfold_tables :=
  unfold Legacy.adduser, Repl.adduser, Legacy.setpassword, Repl.setpassword,
    Legacy.rmuser, Repl.rmuser, Legacy.rmusers, Repl.rmusers,
    Legacy.addtags, Repl.grant, Legacy.rmtags, Repl.revoke,
    Legacy.lsusers, Repl.lsusers, Legacy.close, Repl.close,
    Legacy.exit, Repl.exit, Repl.usage,
    Legacy.tagSliceToSet, Repl.sliceToSet, PUBLIC_TAG.

Ltac same_now :=
  unfold same_effects; cbn;
  rewrite ?store_part_called, ?store_part_printed;
  repeat split; try done.

Lemma adduser_same tokens (s : state B) :
  same_effects (run B (Legacy.adduser tokens) s) (run B (Repl.adduser tokens) s).
Proof.
  unfold_tables. case_decide; [same_now|]. cbn.
  destruct (handle B _ s) as [[success err] s1].
  destruct success; same_now.
Qed.

Lemma setpassword_same tokens (s : state B) :
  same_effects (run B (Legacy.setpassword tokens) s)
               (run B (Repl.setpassword tokens) s).
Proof.
  unfold_tables. case_decide; [same_now|]. cbn.
  destruct (handle B _ s) as [[acc|err] s1]; [|same_now]. cbn.
  destruct (handle B _ s1) as [[success err] s2].
  destruct success; same_now.
Qed.

Lemma rmusers_same tokens (s : state B) :
  same_effects (run B (Legacy.rmusers tokens) s) (run B (Repl.rmusers tokens) s).
Proof.
  unfold_tables. case_decide; [same_now|]. cbn.
  destruct (handle B _ s) as [[n err] s1].
  case_decide; same_now.
Qed.

Lemma addtags_grant_same tokens (s : state B) :
  same_effects (run B (Legacy.addtags tokens) s) (run B (Repl.grant tokens) s).
Proof.
  unfold_tables. case_decide; [same_now|]. cbn.
  destruct (handle B _ s) as [[acc|err] s1]; [|same_now]. cbn.
  destruct (Tags acc) as [tags|]; [|same_now]. cbn.
  destruct (handle B _ s1) as [[success err] s2].
  destruct success; same_now.
Qed.

Lemma lsusers_same tokens (s : state B) :
  same_effects (run B (Legacy.lsusers tokens) s) (run B (Repl.lsusers tokens) s).
Proof.
  unfold_tables. case_decide; [same_now|]. cbn.
  destruct (handle B _ s) as [[accs|err] s1]; [|same_now]. cbn.
  destruct (legacy_lsusers_loop_quiet accs s1) as (Hres & Hfinal & Hlog).
  destruct (repl_lsusers_loop_quiet accs s1) as (Hres' & Hfinal' & Hlog').
  unfold same_effects. rewrite !run_bind. unfold then_run.
  rewrite Hres, Hres'. cbn.
  rewrite !store_part_called, !app_nil_r, Hlog, Hlog', Hfinal, Hfinal'.
  done.
Qed.

Lemma close_exit_same tokens (s : state B) :
  same_effects (run B (Legacy.close tokens) s) (run B (Repl.close tokens) s)
  /\ same_effects (run B (Legacy.exit tokens) s) (run B (Repl.exit tokens) s).
Proof. unfold_tables. split; case_decide; same_now. Qed.

(** [rmuser] with at most one username. *)
Lemma rmuser_same tokens (s : state B) :
  (length tokens ≤ 2)%nat ->
  same_effects (run B (Legacy.rmuser tokens) s) (run B (Repl.rmuser tokens) s).
Proof.
  intros Hlen. unfold_tables.
  destruct tokens as [|cmd [|username [|more tokens]]]; simpl in Hlen; [| | |lia].
  - rewrite decide_True by (simpl; lia). rewrite decide_True by (simpl; lia).
    same_now.
  - rewrite decide_True by (simpl; lia). rewrite decide_True by (simpl; lia).
    same_now.
  - rewrite decide_False by (simpl; lia). rewrite decide_False by (simpl; lia).
    cbn. destruct (handle B _ s) as [[err|] s1]; same_now.
Qed.

(** [rmtags] and [revoke] when ["public"] is not among the tags. *)
Lemma rmtags_revoke_same tokens (s : state B) :
  "public" ∉ drop 2 tokens ->
  same_effects (run B (Legacy.rmtags tokens) s) (run B (Repl.revoke tokens) s).
Proof.
  intros Hnin. unfold_tables. case_decide; [same_now|]. cbn.
  destruct (handle B _ s) as [[acc|err] s1]; [|same_now]. cbn.
  rewrite revoke_loop_rmtags_loop by done. cbn.
  destruct (handle B _ s1) as [[success err] s2].
  destruct success; same_now.
Qed.

End Tables.

(** C9, as the code has it.  On the same tokens and from the same store, the
    first table and the second REPL make the same store calls, get the same
    answers, leave the same store, and both succeed or both fail, for
    [adduser], [setpassword], [rmusers], [addtags]/[grant], [lsusers],
    [close] and [exit]; for [rmuser] when at most one username is given; and
    for [rmtags]/[revoke] when ["public"] is not among the tags to remove.
    What they print, and the text of the error of a refused [adduser], are
    not compared. *)
Theorem tables_agree (B : Backend) (s : state B) (tokens : list string) :
  same_effects (run B (Legacy.adduser tokens) s) (run B (Repl.adduser tokens) s)
  /\ same_effects (run B (Legacy.setpassword tokens) s)
                  (run B (Repl.setpassword tokens) s)
  /\ same_effects (run B (Legacy.rmusers tokens) s) (run B (Repl.rmusers tokens) s)
  /\ same_effects (run B (Legacy.addtags tokens) s) (run B (Repl.grant tokens) s)
  /\ same_effects (run B (Legacy.lsusers tokens) s) (run B (Repl.lsusers tokens) s)
  /\ same_effects (run B (Legacy.close tokens) s) (run B (Repl.close tokens) s)
  /\ same_effects (run B (Legacy.exit tokens) s) (run B (Repl.exit tokens) s)
  /\ ((length tokens ≤ 2)%nat ->
      same_effects (run B (Legacy.rmuser tokens) s) (run B (Repl.rmuser tokens) s))
  /\ (PUBLIC_TAG ∉ drop 2 tokens ->
      same_effects (run B (Legacy.rmtags tokens) s) (run B (Repl.revoke tokens) s)).
Proof.
  split; [apply adduser_same|].
  split; [apply setpassword_same|].
  split; [apply rmusers_same|].
  split; [apply addtags_grant_same|].
  split; [apply lsusers_same|].
  split; [apply close_exit_same|].
  split; [apply close_exit_same|].
  split; [apply rmuser_same|apply rmtags_revoke_same].
Qed.

Lemma tables_agree_witness :
  ((length ["rmuser"; "alice"] ≤ 2)%nat
   /\ same_effects (run memStore (Legacy.rmuser ["rmuser"; "alice"]) demoStore)
                   (run memStore (Repl.rmuser ["rmuser"; "alice"]) demoStore))
  /\ ((PUBLIC_TAG ∉ drop 2 ["revoke"; "alice"; "teamA"])
      /\ same_effects
           (run memStore (Legacy.rmtags ["revoke"; "alice"; "teamA"]) demoStore)
           (run memStore (Repl.revoke ["revoke"; "alice"; "teamA"]) demoStore)).
Proof.
  assert ((length ["rmuser"; "alice"] ≤ 2)%nat) as Hlen by (simpl; lia).
  assert (PUBLIC_TAG ∉ drop 2 ["revoke"; "alice"; "teamA"]) as Hnin
    by (simpl; apply not_elem_of_cons; split; [done|apply not_elem_of_nil]).
  split.
  - split; [exact Hlen|].
    exact (proj1 (proj2 (proj2 (proj2 (proj2 (proj2 (proj2 (proj2
             (tables_agree memStore demoStore ["rmuser"; "alice"])))))))) Hlen).
  - split; [exact Hnin|].
    exact (proj2 (proj2 (proj2 (proj2 (proj2 (proj2 (proj2 (proj2
             (tables_agree memStore demoStore ["revoke"; "alice"; "teamA"])))))))) Hnin).
Defined.

(** C9 fails as stated: both tables have [rmuser]; given two usernames the
    first table prints its usage and leaves the store alone, the second REPL
    deletes both accounts. *)
Lemma tables_differ_on_rmuser :
  let tokens := ["rmuser"; "alice"; "bob"] in
  let r := run memStore (Legacy.rmuser tokens) demoStore in
  let r' := run memStore (Repl.rmuser tokens) demoStore in
  is_Some (Legacy.ops "rmuser") /\ is_Some (Repl.ops "rmuser")
  /\ calls r = [] /\ final r = demoStore
  /\ calls r' = [DeleteAccount "alice"; DeleteAccount "bob"]
  /\ accountsOf (final r') = ∅
  /\ ¬ same_effects r r'.
Proof.
  cbn zeta.
  split; [by eexists|]. split; [by eexists|].
  split; [by vm_compute|]. split; [by vm_compute|].
  split; [by vm_compute|]. split; [by vm_compute|].
  intros (Hcalls & _). vm_compute in Hcalls. discriminate.
Qed.

(** The two tables also part on [rmtags]/[revoke] of ["public"] and on [ls],
    which in the second REPL resolves the tags and can fail. *)
Lemma tables_differ_on_revoke_and_ls :
  ¬ same_effects
      (run memStore (Legacy.rmtags ["rmtags"; "alice"; "teamA"; "public"]) demoStore)
      (run memStore (Repl.revoke ["revoke"; "alice"; "teamA"; "public"]) demoStore)
  /\ ¬ same_effects (run memStore (Legacy.ls ["ls"]) ghostStore)
                    (run memStore (Repl.ls ["ls"]) ghostStore).
Proof.
  split; intros (Hcalls & _); vm_compute in Hcalls; discriminate.
Qed.

(** ** Commands run with the nil writer *)

Section NilOutput.
Context (B : Backend) {A : Type}.

Lemma run_nil_log (p : prog A) (s : state B) :
  log (run B (withNilOutput p) s) = before_print (log (run B p s)).
Proof.
  revert s. induction p as [a|c k IH|m k IH|line k IH|code|msg]; intros s; cbn.
  - done.
  - destruct (handle B c s) as [r s1]. cbn. by rewrite IH.
  - apply IH.
  - done.
  - done.
  - done.
Qed.

Lemma run_nil_quiet (p : prog A) (s : state B) :
  output (run B p s) = [] -> run B (withNilOutput p) s = run B p s.
Proof.
  revert s. induction p as [a|c k IH|m k IH|line k IH|code|msg]; intros s; cbn.
  - done.
  - destruct (handle B c s) as [r s1]. unfold output; cbn. intros Hout.
    unfold logged. by rewrite IH.
  - apply IH.
  - done.
  - done.
  - done.
Qed.

Lemma run_nil_panics (p : prog A) (s : state B) :
  output (run B p s) ≠ [] -> res (run B (withNilOutput p) s) = Panicked nilWriter.
Proof.
  revert s. induction p as [a|c k IH|m k IH|line k IH|code|msg]; intros s; cbn.
  - done.
  - destruct (handle B c s) as [r s1]. unfold output; cbn. apply IH.
  - apply IH.
  - done.
  - done.
  - done.
Qed.

Lemma run_nil_output (p : prog A) (s : state B) :
  output (run B (withNilOutput p) s) = [].
Proof.
  unfold output. rewrite run_nil_log.
  induction (log (run B p s)) as [|[c r|line] l IH]; cbn; done.
Qed.

End NilOutput.

Lemma before_print_prefix l : before_print l `prefix_of` l.
Proof.
  induction l as [|[c r|line] l IH]; cbn.
  - done.
  - by apply prefix_cons.
  - apply prefix_nil.
Qed.

Lemma before_print_calls l : Forall (fun i => line_of i = None) l -> before_print l = l.
Proof.
  induction 1 as [|[c r|line] l Hi Hl IH]; cbn; [done| |done].
  by rewrite IH.
Qed.

Lemma before_print_app_printed l line rest :
  before_print (l ++ Printed line :: rest) = before_print l.
Proof. induction l as [|[c r|line'] l IH]; cbn; [done| |done]. by rewrite IH. Qed.

Lemma before_print_idem l : before_print (before_print l) = before_print l.
Proof. induction l as [|[c r|line] l IH]; cbn; [done| |done]. by rewrite IH. Qed.

(** With the nil writer a command makes no store call it would not make
    with a writer. *)
Lemma run_nil_calls {A} (P : call -> Prop) (B : Backend) (p : prog A) (s : state B) :
  Forall P (calls (run B p s)) -> Forall P (calls (run B (withNilOutput p) s)).
Proof.
  unfold calls. rewrite run_nil_log.
  destruct (before_print_prefix (log (run B p s))) as [rest Heq].
  rewrite Heq at 1. rewrite omap_app. by intros [? _]%Forall_app.
Qed.

(** C2.  [rmprefix], in both tables that have it, never writes a tag
    definition without prefixes: when the definition read has at least one
    prefix, so has every definition written.  When the definition read has
    exactly one prefix and the call names it, nothing is written: the run is
    the one read of the definition (no store call at all for the tag
    ["all"], which is refused before the read).  The second REPL then
    returns the message that each tag must keep a prefix (for ["all"], that
    its definition cannot be modified).  Package [cli] writes that message
    to the writer its closure is given, which [Run] makes the nil writer:
    the run ends in the panic of that write and the message reaches
    nobody. *)
Theorem rmprefix_keeps_a_prefix (B : Backend) (s : state B) (tokens : list string)
    (td : MrPlotterTagDef) :
  let tag := tokens !!! 1 in
  let s1 := (handle B (RetrieveTagDef tag) s).2 in
  (handle B (RetrieveTagDef tag) s).1 = Ok td ->
  ((1 ≤ len (PathPrefix td))%nat ->
     Forall carries_prefix (calls (run B (Repl.rmprefix tokens) s))
     /\ Forall carries_prefix (calls (run B (Cli.Run Cli.rmprefix tokens) s)))
  /\ (forall pfx : string,
        PathPrefix td = Some {[pfx]} ->
        pfx ∈ drop 2 tokens ->
        run B (Repl.rmprefix tokens) s =
          (if decide (tag = "all")
           then mkRun (Returned (Some ("Cannot modify definition of " ++ dq ++ "all"
                                         ++ dq ++ " tag" ++ nl)))
                      s []
           else mkRun (Returned (Some "Each tag must be assigned at least one prefix (use undeftag or undeftags to fully remove a tag)"))
                      s1 [Called (RetrieveTagDef tag) (Ok td)])
        /\ run B (Cli.Run Cli.rmprefix tokens) s =
          (if decide (tag = "all")
           then mkRun (Panicked nilWriter) s []
           else mkRun (Panicked nilWriter) s1
                      [Called (RetrieveTagDef tag) (Ok td)])).
Proof.
  intros tag s1 Hread. split.
  - intros Hlen. split.
    + unfold Repl.rmprefix. case_decide; [by constructor|].
      fold tag. case_decide; [by constructor|]. cbn.
      destruct (handle B (RetrieveTagDef tag) s) as [r s2]; simpl in Hread; subst r; cbn.
      destruct (rmprefix_loop _ _) as [pfxs|] eqn:Hloop; cbn; [|by repeat constructor].
      apply rmprefix_loop_nonempty in Hloop; [|done].
      destruct (handle B _ s2) as [[success err] s3]; cbn.
      destruct success; cbn; repeat constructor; done.
    + unfold Cli.Run. apply run_nil_calls.
      unfold Cli.rmprefix. case_bool_decide; [|by constructor].
      fold tag. case_decide; [by constructor|]. cbn.
      destruct (handle B (RetrieveTagDef tag) s) as [r s2]; simpl in Hread; subst r; cbn.
      destruct (rmprefix_loop _ _) as [pfxs|] eqn:Hloop; cbn; [|by repeat constructor].
      apply rmprefix_loop_nonempty in Hloop; [|done].
      destruct (handle B _ s2) as [[success err] s3]; cbn.
      destruct success; [destruct err|]; cbn; repeat constructor; done.
  - intros pfx Hone Hin. pose proof (drop_elem_length _ _ _ Hin) as Hlen. split.
    + unfold Repl.rmprefix. rewrite decide_False by lia.
      fold tag. change ALL_TAG with "all". case_decide; [done|]. cbn. subst s1.
      destruct (handle B (RetrieveTagDef tag) s) as [r s2]; simpl in Hread; subst r; cbn.
      by rewrite Hone, rmprefix_loop_last.
    + unfold Cli.Run, Cli.rmprefix. rewrite bool_decide_eq_true_2 by lia.
      fold tag. change ALL_TAG with "all". case_decide; [done|]. cbn. subst s1.
      destruct (handle B (RetrieveTagDef tag) s) as [r s2]; simpl in Hread; subst r; cbn.
      by rewrite Hone, rmprefix_loop_last.
Qed.

Lemma rmprefix_keeps_a_prefix_witness :
  let tokens := ["rmprefix"; "teamA"; "/bldg1/"] in
  let td := mkTagDef "teamA" (Some {["/bldg1/"]}) 3 in
  (handle memStore (RetrieveTagDef (tokens !!! 1)) demoStore).1 = Ok td
  /\ PathPrefix td = Some {["/bldg1/"]}
  /\ "/bldg1/" ∈ drop 2 tokens
  /\ run memStore (Repl.rmprefix tokens) demoStore =
       mkRun (B := memStore)
             (Returned (Some "Each tag must be assigned at least one prefix (use undeftag or undeftags to fully remove a tag)"))
             demoStore [Called (RetrieveTagDef "teamA") (Ok td)]
  /\ run memStore (Cli.Run Cli.rmprefix tokens) demoStore =
       mkRun (B := memStore) (Panicked nilWriter)
             demoStore [Called (RetrieveTagDef "teamA") (Ok td)].
Proof.
  intros tokens td.
  assert ((handle memStore (RetrieveTagDef (tokens !!! 1)) demoStore).1 = Ok td)
    as Hread by (vm_compute; reflexivity).
  assert ("/bldg1/" ∈ drop 2 tokens) as Hin by (simpl; set_solver).
  split; [exact Hread|]. split; [reflexivity|]. split; [exact Hin|].
  pose proof (proj2 (rmprefix_keeps_a_prefix memStore demoStore tokens td Hread)
                "/bldg1/" eq_refl Hin) as [Hrepl Hcli].
  split.
  - exact (eq_trans Hrepl eq_refl).
  - exact (eq_trans Hcli eq_refl).
Defined.

(** C7, as the code has it.  In the two later tables a [revoke] whose tags
    include ["public"], at any position, writes nothing: the one store call
    of the run is the read of the account, no conditional write follows and
    no tag is removed from the stored account.  The second REPL returns the
    message that all accounts are assigned ["public"] (or the error of the
    read).  In package [cli] the run ends at the write of its message to the
    writer [Run] hands the closure.  The first table's [rmtags] does not
    reject: it reads the account and writes it back with the tags left by
    its loop, which steps over ["public"] and removes the other tags asked
    for. *)
Theorem revoke_public_rejected (B : Backend) (s : state B) (tokens : list string) :
  PUBLIC_TAG ∈ drop 2 tokens ->
  let username := tokens !!! 1 in
  let r : result MrPlotterAccount := (handle B (RetrieveAccount username) s).1 in
  let s1 := (handle B (RetrieveAccount username) s).2 in
  run B (Repl.revoke tokens) s =
    mkRun (Returned (Some (match r with
                           | Ok _ => "All user accounts are assigned the " ++ dq
                                       ++ "public" ++ dq ++ " tag" ++ nl
                           | Err err => err
                           end)))
          s1 [Called (RetrieveAccount username) r]
  /\ run B (Cli.Run Cli.revoke tokens) s =
       mkRun (Panicked nilWriter) s1 [Called (RetrieveAccount username) r]
  /\ calls (run B (Legacy.rmtags tokens) s) =
       match r with
       | Ok acc =>
           [RetrieveAccount username;
            UpsertAccountAtomically
              (withTags acc (Legacy.rmtags_loop (Tags acc) (drop 2 tokens)))]
       | Err _ => [RetrieveAccount username]
       end.
Proof.
  intros Hin. split; [|split].
  - by apply revoke_run_public.
  - pose proof (drop_elem_length _ _ _ Hin) as Hlen.
    unfold Cli.Run, Cli.revoke. rewrite bool_decide_eq_true_2 by lia. cbn.
    destruct (handle B (RetrieveAccount (tokens !!! 1)) s) as [[acc|err] s1]; cbn;
      [|done].
    by rewrite revoke_loop_public.
  - apply rmtags_run. apply drop_elem_length in Hin. lia.
Qed.

Lemma revoke_public_rejected_witness :
  let tokens := ["revoke"; "alice"; "teamA"; "public"] in
  let alice := mkAccount "alice" (Some {["public"; "teamA"; "teamB"]}) "pw1" 1 in
  PUBLIC_TAG ∈ drop 2 tokens
  /\ run memStore (Repl.revoke tokens) demoStore
     = mkRun (B := memStore)
         (Returned (Some ("All user accounts are assigned the " ++ dq
                            ++ "public" ++ dq ++ " tag" ++ nl)))
         demoStore [Called (RetrieveAccount "alice") (Ok alice)]
  /\ run memStore (Cli.Run Cli.revoke tokens) demoStore
     = mkRun (B := memStore) (Panicked nilWriter)
         demoStore [Called (RetrieveAccount "alice") (Ok alice)].
Proof.
  intros tokens alice.
  assert (PUBLIC_TAG ∈ drop 2 tokens) as Hin
    by (unfold PUBLIC_TAG; simpl; set_solver).
  split; [exact Hin|].
  pose proof (revoke_public_rejected memStore demoStore tokens Hin)
    as (Hrepl & Hcli & _).
  split.
  - exact (eq_trans Hrepl eq_refl).
  - exact (eq_trans Hcli eq_refl).
Defined.

Section ShowTagDefRun.
Context (B : Backend).

(** Through [Run], with another tag than ["all"] first, the closure asks the
    store for that tag and ends at the write that follows, whatever the
    answer. *)
Lemma cli_run_showtagdef_first first tagnames (s : state B) :
  first ≠ ALL_TAG ->
  run B (withNilOutput (Cli.showtagdef_loop first (first :: tagnames))) s =
    mkRun (Panicked nilWriter) (handle B (RetrieveTagDef first) s).2
          [Called (RetrieveTagDef first) (handle B (RetrieveTagDef first) s).1].
Proof.
  intros Hfirst. cbn [Cli.showtagdef_loop]. rewrite decide_False by done. cbn.
  destruct (handle B (RetrieveTagDef first) s) as [[td|err] s1]; cbn; [|done].
  by destruct (PathPrefix td).
Qed.

End ShowTagDefRun.

(** C10.  [showtagdef] tests [tokens[1]], not the tag at hand.  In the
    second REPL, with ["all"] as the first tag the run is one printed line,
    the symbol for all streams, with no store call and the remaining tags
    ignored; with another tag first and ["all"] at a later position the loop
    never prints from the special case: unless the retrieval of an earlier
    tag failed, the store is asked for the definition of ["all"], and every
    line printed is the line of a definition the store returned.  In package
    [cli] the same test decides, and the closure's writes go to the writer
    [Run] hands it: with ["all"] first the run ends at the write of the
    symbol, with no store call; with another tag first it ends at the write
    that follows the retrieval of that first tag, so that a later ["all"] is
    never reached. *)
Theorem showtagdef_tests_first_argument (B : Backend) (s : state B) (cmd : string) :
  (forall rest : list string,
     run B (Repl.showtagdef (cmd :: "all" :: rest)) s =
       mkRun (Returned None) s [Printed ("all: <ALL STREAMS>" ++ nl)]
     /\ run B (Cli.Run Cli.showtagdef (cmd :: "all" :: rest)) s =
       mkRun (Panicked nilWriter) s [])
  /\ (forall (first : string) (pre post : list string),
        first ≠ "all" ->
        let tokens := cmd :: first :: (pre ++ "all" :: post)%list in
        let r := run B (Repl.showtagdef tokens) s in
        (lookup_failed (first :: pre) (log r) \/ looked_up "all" (log r))
        /\ Forall (answered_line B (log r)) (output r)
        /\ run B (Cli.Run Cli.showtagdef tokens) s =
             mkRun (Panicked nilWriter) (handle B (RetrieveTagDef first) s).2
                   [Called (RetrieveTagDef first)
                      (handle B (RetrieveTagDef first) s).1]).
Proof.
  split.
  - intros rest. split.
    + unfold Repl.showtagdef. rewrite decide_False by (simpl; lia).
      cbn [drop lookup_total list_lookup_total Repl.showtagdef_loop].
      by rewrite decide_True.
    + unfold Cli.Run, Cli.showtagdef. rewrite bool_decide_eq_true_2 by (simpl; lia).
      cbn [negb drop lookup_total list_lookup_total Cli.showtagdef_loop].
      by rewrite decide_True.
  - intros first pre post Hfirst tokens r. subst r tokens.
    unfold Repl.showtagdef, Cli.Run, Cli.showtagdef.
    rewrite decide_False by (simpl; lia).
    rewrite bool_decide_eq_true_2 by (simpl; lia).
    cbn [negb drop lookup_total list_lookup_total].
    change (first :: pre ++ "all" :: post)%list
      with ((first :: pre) ++ ALL_TAG :: post)%list.
    split; [by apply repl_showtagdef_reaches_all|].
    split; [by apply repl_showtagdef_lines|].
    by apply cli_run_showtagdef_first.
Qed.

Lemma showtagdef_tests_first_argument_witness :
  let tokens := ["showtagdef"; "teamA"; "all"] in
  let r := run memStore (Repl.showtagdef tokens) demoStore in
  let r' := run memStore (Cli.Run Cli.showtagdef tokens) demoStore in
  "teamA" ≠ "all"
  /\ (lookup_failed ["teamA"] (log r) \/ looked_up "all" (log r))
  /\ calls r = [RetrieveTagDef "teamA"; RetrieveTagDef "all"]
  /\ output r = ["teamA: /bldg1/" ++ nl]
  /\ res r = Returned (Some errNotFound)
  /\ calls r' = [RetrieveTagDef "teamA"]
  /\ res r' = Panicked nilWriter.
Proof.
  intros tokens r r'.
  assert ("teamA" ≠ "all") as Hne by done.
  split; [exact Hne|].
  pose proof (proj2 (showtagdef_tests_first_argument memStore demoStore "showtagdef")
                "teamA" [] [] Hne) as (Hrepl & _ & Hcli).
  split; [exact Hrepl|].
  split; [by vm_compute|]. split; [by vm_compute|]. split; [by vm_compute|].
  subst r'. change tokens with ("showtagdef" :: "teamA" :: ([] ++ "all" :: [])%list).
  rewrite Hcli. split; by vm_compute.
Defined.

Lemma before_print_app_calls l rest :
  Forall (fun i => line_of i = None) l ->
  before_print (l ++ rest) = (l ++ before_print rest)%list.
Proof.
  induction 1 as [|[c r|line] l Hi Hl IH]; cbn; [done| |done].
  by rewrite IH.
Qed.

Lemma printed_or_calls (l : list item) :
  Forall (fun i => line_of i = None) l
  \/ exists l1 line l2, l = (l1 ++ Printed line :: l2)%list.
Proof.
  induction l as [|[c r|line] l IH].
  - left. constructor.
  - destruct IH as [Hall|(l1 & line & l2 & ->)].
    + left. by constructor.
    + right. by exists (Called c r :: l1), line, l2.
  - right. by exists [], line, l.
Qed.

(** C6.  When, during [ls], the retrieval of the definition of a tag returns
    an error, the listing stops there: the failed retrieval is the last
    store call of the run, nothing is printed after it, and no retrieval
    before it had failed.  The second REPL returns an error that names the
    tag and carries the store's error.  Package [cli] writes that message
    to the writer its closure is given, which [Run] makes the nil writer:
    the run ends in the panic of that write and the error reaches nobody. *)
Theorem lookup_error_aborts (B : Backend) (s : state B) (tokens : list string)
    (tag : string) (err : error) :
  (Called (RetrieveTagDef tag) (Err err) ∈ log (run B (Repl.ls tokens) s) ->
     res (run B (Repl.ls tokens) s)
       = Returned (Some ("Could not retrieve tag information for '" ++ tag
                           ++ "': " ++ err ++ nl))
     /\ exists l,
          log (run B (Repl.ls tokens) s)
            = (l ++ [Called (RetrieveTagDef tag) (Err err)])%list
          /\ clean l)
  /\ (Called (RetrieveTagDef tag) (Err err)
        ∈ log (run B (Cli.Run Cli.ls tokens) s) ->
        res (run B (Cli.Run Cli.ls tokens) s) = Panicked nilWriter
        /\ exists l,
             log (run B (Cli.Run Cli.ls tokens) s)
               = (l ++ [Called (RetrieveTagDef tag) (Err err)])%list
             /\ clean l).
Proof.
  split; intros Hin.
  - destruct (repl_ls_outcome B tokens s)
      as [Hclean|(tag' & err' & l & Hres & Hlog & Hclean)].
    + by apply clean_failed in Hin.
    + rewrite Hlog in Hin.
      apply failed_in in Hin as [-> ->]; [|done|by constructor].
      split; [done|]. by exists l.
  - unfold Cli.Run in *. rewrite run_nil_log in *.
    assert (Called (RetrieveTagDef tag) (Err err) ∈ log (run B (Cli.ls tokens) s))
      as Hin'.
    { destruct (before_print_prefix (log (run B (Cli.ls tokens) s))) as [rest Heq].
      rewrite Heq. apply elem_of_app. by left. }
    destruct (cli_ls_outcome B tokens s)
      as [Hclean|(tag' & err' & l & Hres & Hlog & Hclean)].
    + by apply clean_failed in Hin'.
    + rewrite Hlog in Hin'.
      apply failed_in in Hin' as [-> ->]; [|done|by repeat constructor].
      rewrite Hlog in Hin. split.
      * apply run_nil_panics. unfold output. rewrite Hlog, omap_app. cbn.
        by destruct (omap line_of l).
      * destruct (printed_or_calls l) as [Hcalls|(l1 & line & l2 & ->)].
        -- exists l. split; [|done]. rewrite Hlog.
           by rewrite before_print_app_calls.
        -- rewrite <- app_assoc, <- app_comm_cons, before_print_app_printed in Hin.
           destruct (before_print_prefix l1) as [rest Heq].
           exfalso. apply (clean_failed tag' err' _ Hclean).
           rewrite Heq. rewrite <- app_assoc. apply elem_of_app. by left.
Qed.

Lemma lookup_error_aborts_witness :
  Called (RetrieveTagDef "ghost") (Err errNotFound)
    ∈ log (run memStore (Repl.ls ["ls"]) ghostStore)
  /\ res (run memStore (Repl.ls ["ls"]) ghostStore)
     = Returned (Some ("Could not retrieve tag information for 'ghost': "
                         ++ "record does not exist" ++ nl))
  /\ Called (RetrieveTagDef "ghost") (Err errNotFound)
       ∈ log (run memStore (Cli.Run Cli.ls ["ls"]) ghostStore)
  /\ res (run memStore (Cli.Run Cli.ls ["ls"]) ghostStore) = Panicked nilWriter.
Proof.
  assert (Called (RetrieveTagDef "ghost") (Err errNotFound)
            ∈ log (run memStore (Repl.ls ["ls"]) ghostStore)) as Hin.
  { assert (log (run memStore (Repl.ls ["ls"]) ghostStore) !! 1
            = Some (Called (RetrieveTagDef "ghost") (Err errNotFound))) as Hat
      by (vm_compute; reflexivity).
    by apply list_elem_of_lookup_2 in Hat. }
  assert (Called (RetrieveTagDef "ghost") (Err errNotFound)
            ∈ log (run memStore (Cli.Run Cli.ls ["ls"]) ghostStore)) as Hin'.
  { assert (log (run memStore (Cli.Run Cli.ls ["ls"]) ghostStore) !! 1
            = Some (Called (RetrieveTagDef "ghost") (Err errNotFound))) as Hat
      by (vm_compute; reflexivity).
    by apply list_elem_of_lookup_2 in Hat. }
  pose proof (lookup_error_aborts memStore ghostStore ["ls"] "ghost" errNotFound)
    as [Hrepl Hcli].
  split; [exact Hin|]. split; [exact (proj1 (Hrepl Hin))|].
  split; [exact Hin'|]. exact (proj1 (Hcli Hin')).
Defined.

Section LsExact.
Context (B : Backend).

(** With ["all"] among the tags, the loop asks the store for each tag it
    visits before ["all"], in turn, until one retrieval fails or ["all"] is
    reached, and for nothing else. *)
Lemma ls_tags_exact prefixes pre post (s : state B) :
  ALL_TAG ∉ pre ->
  let r := run B (ls_tags ∅ prefixes (pre ++ ALL_TAG :: post)) s in
  (all_answered pre (log r) /\ res r = Returned (inr {["<ALL STREAMS>"]}))
  \/ (exists pre1 tag pre2 err l,
        pre = (pre1 ++ tag :: pre2)%list
        /\ all_answered pre1 l
        /\ log r = (l ++ [Called (RetrieveTagDef tag) (Err err)])%list
        /\ res r = Returned (inl (tag, err))).
Proof.
  revert prefixes s. induction pre as [|tag pre IH]; intros prefixes s Hpre; cbn zeta.
  - rewrite app_nil_l, ls_tags_all. left. split; [constructor|done].
  - apply not_elem_of_cons in Hpre as [Htag Hpre].
    rewrite <- app_comm_cons, ls_tags_step by done.
    destruct (handle B (RetrieveTagDef tag) s) as [[td|err] s1].
    + destruct (IH (prefixes ∪ default ∅ (PathPrefix td)) s1 Hpre)
        as [[Hall Hres]|(pre1 & tag' & pre2 & err & l & -> & Hall & Hlog & Hres)].
      * left. split; [|done]. cbn. constructor; [by exists td|done].
      * right. exists (tag :: pre1), tag', pre2, err,
          (Called (RetrieveTagDef tag) (Ok td) :: l).
        split; [done|]. split; [constructor; [by exists td|done]|].
        split; [cbn [app]; by rewrite <- Hlog|done].
    + right. exists [], tag, pre, err, []. split; [done|].
      split; [constructor|]. done.
Qed.

End LsExact.

(** C4, as the code has it.  For an account whose tags include ["all"], the
    runtime visits the tags in some order [pre ++ "all" :: post].  Resolving
    the account, the store is asked for the definition of each tag of
    [pre], in that order, until one retrieval fails; these are all the
    store calls.  When none fails the result is the symbol for all streams.
    No tag is retrieved once ["all"] is reached, and none at all when
    ["all"] is visited first; the tags visited before it are retrieved. *)
Theorem lookups_stop_at_all (B : Backend) (s : state B) (tagSet : gset string) :
  fair B ->
  "all" ∈ tagSet ->
  exists pre post : list string,
    order B tagSet = (pre ++ "all" :: post)%list
    /\ ("all" ∉ pre)
    /\ let r := run B (resolve ∅ tagSet) s in
       (all_answered pre (log r) /\ res r = Returned (inr {["<ALL STREAMS>"]}))
       \/ (exists pre1 tag pre2 err l,
             pre = (pre1 ++ tag :: pre2)%list
             /\ all_answered pre1 l
             /\ log r = (l ++ [Called (RetrieveTagDef tag) (Err err)])%list
             /\ res r = Returned (inl (tag, err))).
Proof.
  intros Hfair Hall.
  assert ("all" ∈ order B tagSet) as Hin
    by (rewrite (Hfair tagSet); by apply elem_of_elements).
  apply list_elem_of_split_l in Hin as (pre & post & Horder & Hpre).
  exists pre, post. split; [done|]. split; [done|].
  cbn zeta. rewrite run_resolve, Horder.
  by apply ls_tags_exact.
Qed.

Lemma lookups_stop_at_all_witness :
  fair memStoreRev
  /\ "all" ∈ ({["all"; "public"]} : gset string)
  /\ exists pre post : list string,
       order memStoreRev {["all"; "public"]} = (pre ++ "all" :: post)%list
       /\ ("all" ∉ pre)
       /\ let r := run memStoreRev (resolve ∅ {["all"; "public"]}) adminStore in
          (all_answered pre (log r) /\ res r = Returned (inr {["<ALL STREAMS>"]}))
          \/ (exists pre1 tag pre2 err l,
                pre = (pre1 ++ tag :: pre2)%list
                /\ all_answered pre1 l
                /\ log r = (l ++ [Called (RetrieveTagDef tag) (Err err)])%list
                /\ res r = Returned (inl (tag, err))).
Proof.
  assert ("all" ∈ ({["all"; "public"]} : gset string)) as Hall by set_solver.
  split; [exact memStoreRev_fair|]. split; [exact Hall|].
  exact (lookups_stop_at_all memStoreRev adminStore {["all"; "public"]}
           memStoreRev_fair Hall).
Defined.

(** C4 fails as stated: [alice] carries ["all"] and ["public"], the runtime
    visits ["public"] first, and [ls] asks the store for its definition
    before it reaches ["all"], in the second REPL and in package [cli]. *)
Lemma lookup_before_all :
  let r := run memStoreRev (Repl.ls ["ls"]) adminStore in
  let r' := run memStoreRev (Cli.Run Cli.ls ["ls"]) adminStore in
  Tags <$> scan "" (accountsOf adminStore) = [Some {["all"; "public"]}]
  /\ order memStoreRev {["all"; "public"]} = ["public"; "all"]
  /\ calls r = [RetrieveMultipleAccounts ""; RetrieveTagDef "public"]
  /\ output r = ["alice: <ALL STREAMS>" ++ nl]
  /\ calls r' = [RetrieveMultipleAccounts ""; RetrieveTagDef "public"].
Proof. vm_compute. done. Qed.
